(** * Encryption configuration translator

    A shallow embedding of
    [pkg/operator/encryption/encryptionconfig/config.go]: the encoder
    [FromEncryptionState] with its helper [stateToProviders], and the decoder
    [ToEncryptionState].

    Go packages become modules of the same name.  A Go map is a [gmap]; a
    range loop over a map visits its entries in an unspecified order, so the
    encoder takes the entries in the order the loop visits them.  Calls to
    [klog] are recorded as a list of diagnostics, and an index out of range is
    the outcome [Panicked]. *)

From Stdlib Require Import Ascii String List Sorted.
From stdpp Require Import base option list strings gmap sorting.

#[local] Open Scope string_scope.
#[local] Open Scope list_scope.

(** ** Wire schema: k8s.io/apiserver/pkg/apis/config/v1

    Only the fields that config.go reads or writes.  A pointer field is an
    [option]; a provider whose populated variant is one the translator never
    looks at has all four fields [None]. *)
Module apiserverconfigv1.

Record Key := { Name : string; Secret : string }.

Record AESConfiguration := { Keys : list Key }.

Record SecretboxConfiguration := { SecretboxKeys : list Key }.

Record IdentityConfiguration := Build_IdentityConfiguration { }.

Record ProviderConfiguration := {
  AESGCM : option AESConfiguration;
  AESCBC : option AESConfiguration;
  Secretbox : option SecretboxConfiguration;
  Identity : option IdentityConfiguration
}.

Record ResourceConfiguration := {
  Resources : list string;
  Providers : list ProviderConfiguration
}.

Record EncryptionConfiguration := {
  EC_Resources : list ResourceConfiguration
}.

#[global] Instance Key_eq_dec : EqDecision Key.
Proof. solve_decision. Defined.

#[global] Instance AESConfiguration_eq_dec : EqDecision AESConfiguration.
Proof. solve_decision. Defined.

#[global] Instance SecretboxConfiguration_eq_dec :
  EqDecision SecretboxConfiguration.
Proof. solve_decision. Defined.

#[global] Instance IdentityConfiguration_eq_dec :
  EqDecision IdentityConfiguration.
Proof. solve_decision. Defined.

#[global] Instance ProviderConfiguration_eq_dec :
  EqDecision ProviderConfiguration.
Proof. solve_decision. Defined.

End apiserverconfigv1.

(** ** k8s.io/apimachinery/pkg/runtime/schema *)
Module schema.

Record GroupResource := { Group : string; Resource : string }.

#[global] Instance GroupResource_eq_dec : EqDecision GroupResource.
Proof. solve_decision. Defined.

#[global] Instance GroupResource_countable : Countable GroupResource.
Proof.
  refine (inj_countable' (λ gr, (Group gr, Resource gr))
            (λ p, {| Group := p.1; Resource := p.2 |}) _).
  by intros [].
Defined.

End schema.

(** ** The key-state model: pkg/operator/encryption/state

    This package is not part of the translated file; its declarations follow
    the data model of the specification. *)
Module state.

(** Modelled from the spec: the type [state.Mode] is missing.  The spec
    enumerates the tags AESCBC, SecretBox and Identity; the encoder's switch
    has a default branch for every other value, which is [Other] of the raw
    text.  The zero value of the Go type is [Other ""]. *)
Inductive Mode :=
  | AESCBC
  | SecretBox
  | Identity
  | Other (raw : string).

#[global] Instance Mode_eq_dec : EqDecision Mode.
Proof. solve_decision. Defined.

(** Modelled from the spec: the struct [state.KeyState] is missing;
    "KeyState - {Key, Mode, Backed: bool}".  The field [Mode] is [KeyMode]
    here, the name [Mode] being taken by its type. *)
Record KeyState := {
  Key : apiserverconfigv1.Key;
  KeyMode : Mode;
  Backed : bool
}.

#[global] Instance KeyState_eq_dec : EqDecision KeyState.
Proof. solve_decision. Defined.

(** Modelled from the spec: the struct [state.GroupResourceState] is missing;
    "{WriteKey: KeyState (optional), ReadKeys: ordered sequence of
    KeyState}".  An unset write key is the zero [KeyState]. *)
Record GroupResourceState := {
  WriteKey : KeyState;
  ReadKeys : list KeyState
}.

(** The zero values Go gives to a declared but unassigned variable. *)
Definition zeroKeyState : KeyState :=
  {| Key := {| apiserverconfigv1.Name := ""; apiserverconfigv1.Secret := "" |};
     KeyMode := Other "";
     Backed := false |}.

Definition zeroGroupResourceState : GroupResourceState :=
  {| WriteKey := zeroKeyState; ReadKeys := [] |}.

(** Modelled from the spec: the method [HasWriteKey] is missing;
    "HasWriteKey() is true iff WriteKey is a non-zero KeyState". *)
Definition HasWriteKey (k : GroupResourceState) : bool :=
  bool_decide (WriteKey k ≠ zeroKeyState).

(** Modelled from the spec: the function [EqualKeyAndEqualID] is missing;
    "two KeyStates are the same key iff their Key identifiers and secret
    values match exactly, regardless of Backed or Mode". *)
Definition EqualKeyAndEqualID (s1 s2 : KeyState) : bool :=
  bool_decide (apiserverconfigv1.Name (Key s1) = apiserverconfigv1.Name (Key s2)
               ∧ apiserverconfigv1.Secret (Key s1)
                 = apiserverconfigv1.Secret (Key s2)).

End state.

(** ** Outcomes and diagnostics *)

(** A call either returns or panics (here: an index out of range). *)
Inductive outcome (A : Type) :=
  | Returned (a : A)
  | Panicked.
Arguments Returned {A} a.
Arguments Panicked {A}.

(** The result of a fallible collaborator: a value or an error text. *)
Inductive result (A : Type) :=
  | Ok (a : A)
  | Err (e : string).
Arguments Ok {A} a.
Arguments Err {A} e.

(** One constructor per [klog] call of config.go, with the call's arguments. *)
Inductive Diag :=
  | Warning_invalid_secret (err : string)
  | Warning_invalid_encryption_config (resources : list string)
  | Info_invalid_provider (index : nat) (resource : string)
  | Info_invalid_mode (name : string) (mode : state.Mode).

(** ** Sample collaborators

    Concrete stand-ins for what the translator receives from outside, used to
    run it on examples. *)
Module Sample.

(** A sample value for the sentinel: sixteen zero bytes in base64. *)
Definition emptyStaticIdentityKey : string := "AAAAAAAAAAAAAAAAAAAAAA==".

(** A persisted record either holds a key state or is malformed. *)
Definition Secret : Type := result state.KeyState.

Definition ToKeyState (s : Secret) : result state.KeyState := s.

Definition recentFirst (a b : state.KeyState) : Prop :=
  String.le (apiserverconfigv1.Name (state.Key b))
            (apiserverconfigv1.Name (state.Key a)).

#[global] Instance recentFirst_dec : RelDecision recentFirst.
Proof. intros a b. unfold recentFirst. apply _. Defined.

(** Most recent first, with names ordered as texts. *)
Definition SortRecentFirst (unsorted : list state.KeyState) :
    list state.KeyState :=
  merge_sort recentFirst unsorted.

(** Resource identifiers as they are commonly written: "resource" alone for
    the empty group, else "resource.group". *)
Definition GroupResource_String (gr : schema.GroupResource) : string :=
  if decide (schema.Group gr = "") then schema.Resource gr
  else (schema.Resource gr ++ "." ++ schema.Group gr)%string.

Fixpoint splitAtDot (s : string) : string * option string :=
  match s with
  | EmptyString => (EmptyString, None)
  | String c rest =>
      if Ascii.eqb c "."%char then (EmptyString, Some rest)
      else let '(r, g) := splitAtDot rest in (String c r, g)
  end.

Definition ParseGroupResource (gr : string) : schema.GroupResource :=
  match splitAtDot gr with
  | (r, Some g) => {| schema.Group := g; schema.Resource := r |}
  | (r, None) => {| schema.Group := ""; schema.Resource := r |}
  end.

(** Sample keys and states. *)
Definition key (name secret : string) (mode : state.Mode) : state.KeyState :=
  {| state.Key := {| apiserverconfigv1.Name := name;
                     apiserverconfigv1.Secret := secret |};
     state.KeyMode := mode;
     state.Backed := false |}.

Definition secretsResource : schema.GroupResource :=
  {| schema.Group := ""; schema.Resource := "secrets" |}.

(** An Identity-mode key that carries the sentinel. *)
Definition k1 : state.KeyState :=
  key "k1" emptyStaticIdentityKey state.Identity.

(** An Identity-mode key that carries another secret. *)
Definition k1_plain : state.KeyState := key "k1" "c2VjcmV0" state.Identity.

(** A key whose mode was never set. *)
Definition k1_unset : state.KeyState := key "k1" "c2VjcmV0" (state.Other "").

Definition k3 : state.KeyState := key "k3" "c2VjcmV0" state.AESCBC.

(** A genuine AESGCM key, as a hand-written wire configuration may hold. *)
Definition k2_wire : apiserverconfigv1.Key :=
  {| apiserverconfigv1.Name := "k2"; apiserverconfigv1.Secret := "c2VjcmV0" |}.

Definition configmapsResource : schema.GroupResource :=
  {| schema.Group := "apps"; schema.Resource := "configmaps" |}.

(** Write key k3, which is also the only read key. *)
Definition writeAndRead : state.GroupResourceState :=
  {| state.WriteKey := k3; state.ReadKeys := [k3] |}.

(** Write key k3, read keys k3 and the older Identity-mode key k1. *)
Definition rotated : state.GroupResourceState :=
  {| state.WriteKey := k3; state.ReadKeys := [k3; k1] |}.

(** The write key listed twice among the read keys. *)
Definition duplicated : state.GroupResourceState :=
  {| state.WriteKey := k3; state.ReadKeys := [k3; k3] |}.

(** An Identity-mode write key whose secret is not the sentinel. *)
Definition identityPlain : state.GroupResourceState :=
  {| state.WriteKey := k1_plain; state.ReadKeys := [k1_plain] |}.

(** No write key, and an Identity-mode read key whose secret is not the
    sentinel. *)
Definition identityPlainRead : state.GroupResourceState :=
  {| state.WriteKey := state.zeroKeyState; state.ReadKeys := [k1_plain] |}.

(** A write key whose mode was never set, and no other key. *)
Definition unsetMode : state.GroupResourceState :=
  {| state.WriteKey := k1_unset; state.ReadKeys := [k1_unset] |}.

(** No write key, and a read key whose mode was never set. *)
Definition unsetModeRead : state.GroupResourceState :=
  {| state.WriteKey := state.zeroKeyState; state.ReadKeys := [k1_unset] |}.

(** A write key whose mode was never set, and an AESCBC read key. *)
Definition unsetModeKeyedRead : state.GroupResourceState :=
  {| state.WriteKey := k1_unset; state.ReadKeys := [k3] |}.


(** The keys k3 and k1 as a persisted record backs them. *)
Definition k3_backed : state.KeyState :=
  {| state.Key := state.Key k3; state.KeyMode := state.AESCBC;
     state.Backed := true |}.

Definition k1_backed : state.KeyState :=
  {| state.Key := state.Key k1; state.KeyMode := state.Identity;
     state.Backed := true |}.

(** A resource map, in one order of its entries. *)
Definition twoResources :
    list (schema.GroupResource * state.GroupResourceState) :=
  [(secretsResource, rotated); (configmapsResource, writeAndRead)].

(** Persisted records: two that parse and one that does not. *)
Definition records : list Secret :=
  [Ok k3; Err "malformed record"; Ok k1].

End Sample.

(** ** Provider literals written by the encoder *)

(** [ProviderConfiguration{Identity: &IdentityConfiguration{}}] *)
Definition identityProvider : apiserverconfigv1.ProviderConfiguration :=
  {| apiserverconfigv1.AESGCM := None;
     apiserverconfigv1.AESCBC := None;
     apiserverconfigv1.Secretbox := None;
     apiserverconfigv1.Identity :=
       Some apiserverconfigv1.Build_IdentityConfiguration |}.

(** [ProviderConfiguration{AESCBC: &AESConfiguration{Keys: []Key{key}}}] *)
Definition aescbcProvider (key : apiserverconfigv1.Key) :
    apiserverconfigv1.ProviderConfiguration :=
  {| apiserverconfigv1.AESGCM := None;
     apiserverconfigv1.AESCBC := Some {| apiserverconfigv1.Keys := [key] |};
     apiserverconfigv1.Secretbox := None;
     apiserverconfigv1.Identity := None |}.

(** [ProviderConfiguration{Secretbox:
    &SecretboxConfiguration{Keys: []Key{key}}}] *)
Definition secretboxProvider (key : apiserverconfigv1.Key) :
    apiserverconfigv1.ProviderConfiguration :=
  {| apiserverconfigv1.AESGCM := None;
     apiserverconfigv1.AESCBC := None;
     apiserverconfigv1.Secretbox :=
       Some {| apiserverconfigv1.SecretboxKeys := [key] |};
     apiserverconfigv1.Identity := None |}.

(** [ProviderConfiguration{AESGCM: &AESConfiguration{Keys: []Key{key}}}] *)
Definition aesgcmProvider (key : apiserverconfigv1.Key) :
    apiserverconfigv1.ProviderConfiguration :=
  {| apiserverconfigv1.AESGCM := Some {| apiserverconfigv1.Keys := [key] |};
     apiserverconfigv1.AESCBC := None;
     apiserverconfigv1.Secretbox := None;
     apiserverconfigv1.Identity := None |}.

(** ** The encoder: stateToProviders *)

(** Lines 145-150: the first key of the tail that equals the write key is
    cut out, and the loop stops there. *)
Fixpoint dropFirstEqual (writeKey : state.KeyState)
    (tail : list state.KeyState) : list state.KeyState :=
  match tail with
  | [] => []
  | k :: rest =>
      if state.EqualKeyAndEqualID k writeKey then rest
      else k :: dropFirstEqual writeKey rest
  end.

(** Lines 138-150: the keys the encoder walks. *)
Definition allKeysOf (desired : state.GroupResourceState) :
    list state.KeyState :=
  if state.HasWriteKey desired
  then state.WriteKey desired
         :: dropFirstEqual (state.WriteKey desired) (state.ReadKeys desired)
  else state.ReadKeys desired.

(** The variables the loop of lines 159-188 updates. *)
Record encoderLoop := {
  providers : list apiserverconfigv1.ProviderConfiguration;
  aesgcmProviders : list apiserverconfigv1.ProviderConfiguration;
  encoderLog : list Diag
}.

(** The body of the loop of lines 159-188, at index [i]. *)
Definition encodeKey (i : nat) (key : state.KeyState) (st : encoderLoop) :
    encoderLoop :=
  match state.KeyMode key with
  | state.AESCBC =>
      {| providers := providers st ++ [aescbcProvider (state.Key key)];
         aesgcmProviders := aesgcmProviders st;
         encoderLog := encoderLog st |}
  | state.SecretBox =>
      {| providers := providers st ++ [secretboxProvider (state.Key key)];
         aesgcmProviders := aesgcmProviders st;
         encoderLog := encoderLog st |}
  | state.Identity =>
      {| providers :=
           if bool_decide (i = 0) then providers st ++ [identityProvider]
           else providers st;
         aesgcmProviders :=
           aesgcmProviders st ++ [aesgcmProvider (state.Key key)];
         encoderLog := encoderLog st |}
  | state.Other _ =>
      {| providers := providers st;
         aesgcmProviders := aesgcmProviders st;
         encoderLog :=
           encoderLog st
           ++ [Info_invalid_mode (apiserverconfigv1.Name (state.Key key))
                 (state.KeyMode key)] |}
  end.

Fixpoint encodeKeys (i : nat) (allKeys : list state.KeyState)
    (st : encoderLoop) : encoderLoop :=
  match allKeys with
  | [] => st
  | key :: rest => encodeKeys (S i) rest (encodeKey i key st)
  end.

(** Lines 137-201.  [providers[0]] on line 191 panics when the list is
    empty. *)
Definition stateToProviders (desired : state.GroupResourceState) :
    outcome (list apiserverconfigv1.ProviderConfiguration) * list Diag :=
  let st0 :=
    {| providers :=
         if state.HasWriteKey desired then [] else [identityProvider];
       aesgcmProviders := [];
       encoderLog := [] |} in
  let st := encodeKeys 0 (allKeysOf desired) st0 in
  match providers st with
  | [] => (Panicked, encoderLog st)
  | first :: _ =>
      let withFallback :=
        match apiserverconfigv1.Identity first with
        | None => providers st ++ [identityProvider]
        | Some _ => providers st
        end in
      (Returned (withFallback ++ aesgcmProviders st), encoderLog st)
  end.

(** [resourceConfigs[i].Resources[0]]; every entry the encoder builds names
    exactly one resource. *)
Definition firstResource (rc : apiserverconfigv1.ResourceConfiguration) :
    string :=
  match apiserverconfigv1.Resources rc with
  | r :: _ => r
  | [] => ""
  end.

(** The comparison handed to [sort.Slice] on lines 33-35. *)
Definition less (a b : apiserverconfigv1.ResourceConfiguration) : bool :=
  String.ltb (firstResource a) (firstResource b).

(** After [sort.Slice] no later element is less than an earlier one. *)
Definition notAfter (a b : apiserverconfigv1.ResourceConfiguration) : Prop :=
  less b a = false.

#[global] Instance notAfter_dec : RelDecision notAfter.
Proof. intros a b. unfold notAfter. apply _. Defined.

(** [sort.Slice] with [less]: a sort by comparisons.  Go leaves the order of
    entries that compare equal open; nothing below depends on it. *)
Definition sort_Slice (resourceConfigs :
    list apiserverconfigv1.ResourceConfiguration) :
    list apiserverconfigv1.ResourceConfiguration :=
  merge_sort notAfter resourceConfigs.

(** ** The decoder: classification of one provider *)

(** The outcome of the switch of lines 81-107. *)
Inductive classified :=
  | Decoded (ks : state.KeyState)
  | FakeProvider
  | InvalidProvider.

(** [len(keys) == 1], with the key. *)
Definition singleKey (keys : list apiserverconfigv1.Key) :
    option apiserverconfigv1.Key :=
  match keys with
  | [k] => Some k
  | _ => None
  end.

(** Lines 110-115: the first backed key equal to [ks] replaces it. *)
Fixpoint enrich (backedKeys : list state.KeyState) (ks : state.KeyState) :
    state.KeyState :=
  match backedKeys with
  | [] => ks
  | k :: rest =>
      if state.EqualKeyAndEqualID ks k then k else enrich rest ks
  end.

(** Lines 117-121. *)
Definition recordKey (i : nat) (ks : state.KeyState)
    (grState : state.GroupResourceState) : state.GroupResourceState :=
  let writeKey :=
    if bool_decide (i = 0)
       || (bool_decide (state.KeyMode ks = state.Identity)
           && negb (state.HasWriteKey grState))
    then ks else state.WriteKey grState in
  {| state.WriteKey := writeKey;
     state.ReadKeys := state.ReadKeys grState ++ [ks] |}.

(** ** Sample wire configurations *)
Module SampleWire.

(** Three entries: two name "secrets", and the one between them names two
    resources. *)
Definition repeated : apiserverconfigv1.EncryptionConfiguration :=
  {| apiserverconfigv1.EC_Resources :=
       [{| apiserverconfigv1.Resources := ["secrets"];
           apiserverconfigv1.Providers :=
             [aescbcProvider (state.Key Sample.k3); identityProvider] |};
        {| apiserverconfigv1.Resources := ["secrets"; "configmaps"];
           apiserverconfigv1.Providers := [identityProvider] |};
        {| apiserverconfigv1.Resources := ["secrets"];
           apiserverconfigv1.Providers :=
             [identityProvider; aesgcmProvider (state.Key Sample.k1)] |}] |}.

(** The key k1 as the decoder returns it when a persisted record backs
    it. *)
Definition k1_backed : state.KeyState :=
  {| state.Key := state.Key Sample.k1; state.KeyMode := state.Identity;
     state.Backed := true |}.

(** The state decoded for "secrets" from [repeated] with the records of
    [Sample.records]. *)
Definition secretsState : state.GroupResourceState :=
  {| state.WriteKey := k1_backed; state.ReadKeys := [k1_backed] |}.

End SampleWire.

(** The orders in which a range loop may visit the entries of a map. *)
Definition visits
    (encryptionState : gmap schema.GroupResource state.GroupResourceState)
    (entries : list (schema.GroupResource * state.GroupResourceState)) :
    Prop :=
  entries ≡ₚ map_to_list encryptionState.

(** [km.Backed = true] on line 59. *)
Definition markBacked (km : state.KeyState) : state.KeyState :=
  {| state.Key := state.Key km; state.KeyMode := state.KeyMode km;
     state.Backed := true |}.

Section encryptionconfig.

(** What config.go takes from its collaborators.  The sentinel is computed
    once, from [crypto.NewIdentityKey]; persisted records are read by
    [secrets.ToKeyState]; key states are ordered by [state.SortRecentFirst];
    resource identifiers are printed and parsed by package [schema]. *)
Variable emptyStaticIdentityKey : string.
Variable Secret : Type.
Variable ToKeyState : Secret → result state.KeyState.
Variable SortRecentFirst : list state.KeyState → list state.KeyState.
Variable GroupResource_String : schema.GroupResource → string.
Variable ParseGroupResource : string → schema.GroupResource.

#[local] Set Default Proof Using "Type".

(** ** The encoder: FromEncryptionState *)

(** Lines 25-30, over the entries in the order the range loop visits them.
    A panic of [stateToProviders] ends the call. *)
Fixpoint encodeEntries
    (entries : list (schema.GroupResource * state.GroupResourceState)) :
    outcome (list apiserverconfigv1.ResourceConfiguration) * list Diag :=
  match entries with
  | [] => (Returned [], [])
  | (gr, grKeys) :: rest =>
      match stateToProviders grKeys with
      | (Panicked, log) => (Panicked, log)
      | (Returned ps, log) =>
          let rc :=
            {| apiserverconfigv1.Resources := [GroupResource_String gr];
               apiserverconfigv1.Providers := ps |} in
          match encodeEntries rest with
          | (Panicked, log') => (Panicked, log ++ log')
          | (Returned rcs, log') => (Returned (rc :: rcs), log ++ log')
          end
      end
  end.

(** Lines 22-38. *)
Definition FromEncryptionState
    (encryptionState : list (schema.GroupResource * state.GroupResourceState)) :
    outcome apiserverconfigv1.EncryptionConfiguration * list Diag :=
  match encodeEntries encryptionState with
  | (Panicked, log) => (Panicked, log)
  | (Returned resourceConfigs, log) =>
      (Returned
         {| apiserverconfigv1.EC_Resources := sort_Slice resourceConfigs |},
       log)
  end.

(** ** The decoder: ToEncryptionState *)

(** The switch of lines 81-107; the cases are tried in the order written. *)
Definition classifyProvider
    (provider : apiserverconfigv1.ProviderConfiguration) : classified :=
  match apiserverconfigv1.AESCBC provider
        ≫= (λ c, singleKey (apiserverconfigv1.Keys c)) with
  | Some k =>
      Decoded {| state.Key := k; state.KeyMode := state.AESCBC;
                 state.Backed := false |}
  | None =>
  match apiserverconfigv1.Secretbox provider
        ≫= (λ c, singleKey (apiserverconfigv1.SecretboxKeys c)) with
  | Some k =>
      Decoded {| state.Key := k; state.KeyMode := state.SecretBox;
                 state.Backed := false |}
  | None =>
  match apiserverconfigv1.Identity provider with
  | Some _ => FakeProvider
  | None =>
  match apiserverconfigv1.AESGCM provider
        ≫= (λ c, singleKey (apiserverconfigv1.Keys c)) with
  | Some k =>
      if bool_decide (apiserverconfigv1.Secret k = emptyStaticIdentityKey)
      then Decoded {| state.Key := k; state.KeyMode := state.Identity;
                      state.Backed := false |}
      else InvalidProvider
  | None => InvalidProvider
  end end end end.

(** The body of the loop of lines 78-122, at index [i]. *)
Definition decodeProvider (backedKeys : list state.KeyState)
    (resource : string) (i : nat)
    (provider : apiserverconfigv1.ProviderConfiguration)
    (acc : state.GroupResourceState * list Diag) :
    state.GroupResourceState * list Diag :=
  match classifyProvider provider with
  | FakeProvider => acc
  | InvalidProvider => (acc.1, acc.2 ++ [Info_invalid_provider i resource])
  | Decoded ks => (recordKey i (enrich backedKeys ks) acc.1, acc.2)
  end.

Fixpoint decodeProviders (backedKeys : list state.KeyState)
    (resource : string) (i : nat)
    (providers : list apiserverconfigv1.ProviderConfiguration)
    (acc : state.GroupResourceState * list Diag) :
    state.GroupResourceState * list Diag :=
  match providers with
  | [] => acc
  | provider :: rest =>
      decodeProviders backedKeys resource (S i) rest
        (decodeProvider backedKeys resource i provider acc)
  end.

(** Lines 52-61: the backed keys in the order of the records, before they are
    sorted, with the warnings. *)
Fixpoint collectBackedKeys (keySecrets : list Secret) :
    list state.KeyState * list Diag :=
  match keySecrets with
  | [] => ([], [])
  | s :: rest =>
      let '(keys, log) := collectBackedKeys rest in
      match ToKeyState s with
      | Err err => (keys, Warning_invalid_secret err :: log)
      | Ok km => (markBacked km :: keys, log)
      end
  end.

(** The body of the loop of lines 69-128. *)
Definition decodeResourceConfig (backedKeys : list state.KeyState)
    (resourceConfig : apiserverconfigv1.ResourceConfiguration)
    (acc : gmap schema.GroupResource state.GroupResourceState * list Diag) :
    gmap schema.GroupResource state.GroupResourceState * list Diag :=
  match apiserverconfigv1.Resources resourceConfig with
  | [resource] =>
      let '(grState, log) :=
        decodeProviders backedKeys resource 0
          (apiserverconfigv1.Providers resourceConfig)
          (state.zeroGroupResourceState, acc.2) in
      (<[ParseGroupResource resource :=
           {| state.WriteKey := state.WriteKey grState;
              state.ReadKeys := SortRecentFirst (state.ReadKeys grState) |}]>
         acc.1, log)
  | resources =>
      (acc.1, acc.2 ++ [Warning_invalid_encryption_config resources])
  end.

Fixpoint decodeResourceConfigs (backedKeys : list state.KeyState)
    (resourceConfigs : list apiserverconfigv1.ResourceConfiguration)
    (acc : gmap schema.GroupResource state.GroupResourceState * list Diag) :
    gmap schema.GroupResource state.GroupResourceState * list Diag :=
  match resourceConfigs with
  | [] => acc
  | resourceConfig :: rest =>
      decodeResourceConfigs backedKeys rest
        (decodeResourceConfig backedKeys resourceConfig acc)
  end.

(** Lines 51-131.  A nil [encryptionConfig] is [None]; the nil map returned
    for it reads as the empty map. *)
Definition ToEncryptionState
    (encryptionConfig : option apiserverconfigv1.EncryptionConfiguration)
    (keySecrets : list Secret) :
    (gmap schema.GroupResource state.GroupResourceState
     * list state.KeyState) * list Diag :=
  let '(unsorted, log) := collectBackedKeys keySecrets in
  let backedKeys := SortRecentFirst unsorted in
  match encryptionConfig with
  | None => ((∅, backedKeys), log)
  | Some config =>
      let '(out, log') :=
        decodeResourceConfigs backedKeys
          (apiserverconfigv1.EC_Resources config) (∅, log) in
      ((out, backedKeys), log')
  end.


(** ** What the encoder's loop adds, key by key *)

(** The providers one key adds to [providers] at index [i]. *)
Definition keyProviders (i : nat) (key : state.KeyState) :
    list apiserverconfigv1.ProviderConfiguration :=
  match state.KeyMode key with
  | state.AESCBC => [aescbcProvider (state.Key key)]
  | state.SecretBox => [secretboxProvider (state.Key key)]
  | state.Identity => if bool_decide (i = 0) then [identityProvider] else []
  | state.Other _ => []
  end.

(** The providers one key adds to [aesgcmProviders]. *)
Definition keySentinels (key : state.KeyState) :
    list apiserverconfigv1.ProviderConfiguration :=
  match state.KeyMode key with
  | state.Identity => [aesgcmProvider (state.Key key)]
  | _ => []
  end.

(** The diagnostics one key adds. *)
Definition keyLog (key : state.KeyState) : list Diag :=
  match state.KeyMode key with
  | state.Other _ =>
      [Info_invalid_mode (apiserverconfigv1.Name (state.Key key))
         (state.KeyMode key)]
  | _ => []
  end.

Fixpoint walkProviders (i : nat) (allKeys : list state.KeyState) :
    list apiserverconfigv1.ProviderConfiguration :=
  match allKeys with
  | [] => []
  | key :: rest => keyProviders i key ++ walkProviders (S i) rest
  end.

(** A mode the encoder's switch names. *)
Definition validMode (m : state.Mode) : Prop :=
  match m with
  | state.Other _ => False
  | _ => True
  end.

(** The identity of a key: its name and secret. *)
Definition sameIdentity (a b : state.KeyState) : Prop :=
  state.Key a = state.Key b.

(** Modelled from the spec: [state.SortRecentFirst] is missing; "Sort the
    result most-recent-first".  It reorders its argument. *)
Definition reorders (sortf : list state.KeyState → list state.KeyState) :
    Prop :=
  ∀ l, sortf l ≡ₚ l.

(** Modelled from the spec: [state.SortRecentFirst] is missing; "Identifiers
    are assumed orderable such that more recent is well-defined".  With
    [recentFirst a b] for "a may stand before b", its result is in that
    order. *)
Definition ordersBy (recentFirst : relation state.KeyState)
    (sortf : list state.KeyState → list state.KeyState) : Prop :=
  ∀ l, Sorted recentFirst (sortf l).


(** The backed key a persisted record yields, when it parses. *)
Definition backedKeyOf (s : Secret) : option state.KeyState :=
  match ToKeyState s with
  | Ok km => Some (markBacked km)
  | Err _ => None
  end.

(** The warning a persisted record causes, when it does not parse. *)
Definition warningOf (s : Secret) : option Diag :=
  match ToKeyState s with
  | Ok _ => None
  | Err err => Some (Warning_invalid_secret err)
  end.

(** ** What the decoder's loop reads, provider by provider *)

(** The key one provider contributes, if any. *)
Definition decodedKey (backedKeys : list state.KeyState)
    (provider : apiserverconfigv1.ProviderConfiguration) :
    option state.KeyState :=
  match classifyProvider provider with
  | Decoded ks => Some (enrich backedKeys ks)
  | _ => None
  end.

(** The keys a provider list contributes, in the order of the list. *)
Definition decodedKeys (backedKeys : list state.KeyState)
    (providers : list apiserverconfigv1.ProviderConfiguration) :
    list state.KeyState :=
  omap (decodedKey backedKeys) providers.

(** The first Identity-mode key of a list. *)
Definition firstIdentity (keys : list state.KeyState) :
    option state.KeyState :=
  head (filter (λ k, state.KeyMode k = state.Identity) keys).

(** The write key as the claim describes it: the key at position 0; the
    first later Identity-mode key when position 0 is the placeholder; unset
    in every other case. *)
Definition writeKeyClaimed (backedKeys : list state.KeyState)
    (providers : list apiserverconfigv1.ProviderConfiguration) :
    state.KeyState :=
  match providers with
  | [] => state.zeroKeyState
  | first :: rest =>
      match classifyProvider first with
      | Decoded ks => enrich backedKeys ks
      | FakeProvider =>
          default state.zeroKeyState
            (firstIdentity (decodedKeys backedKeys rest))
      | InvalidProvider => state.zeroKeyState
      end
  end.

(** The write key as the loop determines it: the key at position 0; the
    first later Identity-mode key when position 0 gave no key, whether it
    was the placeholder or an invalid provider; unset when there is
    neither. *)
Definition writeKeyDecoded (backedKeys : list state.KeyState)
    (providers : list apiserverconfigv1.ProviderConfiguration) :
    state.KeyState :=
  match providers with
  | [] => state.zeroKeyState
  | first :: rest =>
      match classifyProvider first with
      | Decoded ks => enrich backedKeys ks
      | FakeProvider | InvalidProvider =>
          default state.zeroKeyState
            (firstIdentity (decodedKeys backedKeys rest))
      end
  end.

(** The diagnostics of the provider loop, from index [i] on. *)
Fixpoint providerLog (resource : string) (i : nat)
    (providers : list apiserverconfigv1.ProviderConfiguration) : list Diag :=
  match providers with
  | [] => []
  | provider :: rest =>
      match classifyProvider provider with
      | InvalidProvider => [Info_invalid_provider i resource]
      | _ => []
      end ++ providerLog resource (S i) rest
  end.

(** The state of the scenario "no write key, one Identity-mode read key k1",
    the key carrying the sentinel. *)
Definition identityOnly : state.GroupResourceState :=
  {| state.WriteKey := state.zeroKeyState;
     state.ReadKeys := [Sample.key "k1" emptyStaticIdentityKey state.Identity]
  |}.

(** A key whose mode gives it a provider of its own kind. *)
Definition keyedMode (k : state.KeyState) : Prop :=
  state.KeyMode k = state.AESCBC ∨ state.KeyMode k = state.SecretBox.

#[local] Instance keyedMode_dec k : Decision (keyedMode k).
Proof. unfold keyedMode. apply _. Defined.

(** A key as the decoder rebuilds it from the wire: not backed. *)
Definition unbacked (k : state.KeyState) : state.KeyState :=
  {| state.Key := state.Key k; state.KeyMode := state.KeyMode k;
     state.Backed := false |}.

(** An Identity-mode key carries the sentinel as its secret. *)
Definition sentinelIfIdentity (k : state.KeyState) : Prop :=
  state.KeyMode k = state.Identity →
  apiserverconfigv1.Secret (state.Key k) = emptyStaticIdentityKey.

(** ** Reading whole calls *)

(** The wire entry one map entry gives, when [stateToProviders] returns. *)
Definition encodeEntry
    (entry : schema.GroupResource * state.GroupResourceState) :
    option apiserverconfigv1.ResourceConfiguration :=
  match (stateToProviders entry.2).1 with
  | Returned ps =>
      Some {| apiserverconfigv1.Resources := [GroupResource_String entry.1];
              apiserverconfigv1.Providers := ps |}
  | Panicked => None
  end.

(** The state the decoder stores for a provider list. *)
Definition decodedState (backedKeys : list state.KeyState)
    (providers : list apiserverconfigv1.ProviderConfiguration) :
    state.GroupResourceState :=
  {| state.WriteKey := writeKeyDecoded backedKeys providers;
     state.ReadKeys := SortRecentFirst (decodedKeys backedKeys providers) |}.

(** The map entry one wire entry gives, when it names exactly one
    resource. *)
Definition decodedEntry (backedKeys : list state.KeyState)
    (resourceConfig : apiserverconfigv1.ResourceConfiguration) :
    option (schema.GroupResource * state.GroupResourceState) :=
  match apiserverconfigv1.Resources resourceConfig with
  | [resource] =>
      Some (ParseGroupResource resource,
            decodedState backedKeys
              (apiserverconfigv1.Providers resourceConfig))
  | _ => None
  end.

(** The keys a provider holds, in any of its key-bearing variants. *)
Definition providerKeys (p : apiserverconfigv1.ProviderConfiguration) :
    list apiserverconfigv1.Key :=
  from_option apiserverconfigv1.Keys [] (apiserverconfigv1.AESCBC p)
  ++ from_option apiserverconfigv1.SecretboxKeys []
       (apiserverconfigv1.Secretbox p)
  ++ from_option apiserverconfigv1.Keys [] (apiserverconfigv1.AESGCM p).

(** What encoding and then decoding makes of a state: the walked keys come
    back unbacked, those of mode AESCBC and SecretBox before those of mode
    Identity; the write key comes back, and where there was none the first
    Identity-mode read key takes its place. *)
Definition roundTrip (desired : state.GroupResourceState) :
    state.GroupResourceState :=
  {| state.WriteKey :=
       if state.HasWriteKey desired then unbacked (state.WriteKey desired)
       else default state.zeroKeyState
              (head (unbacked
                       <$> filter (λ k, state.KeyMode k = state.Identity)
                             (state.ReadKeys desired)));
     state.ReadKeys :=
       SortRecentFirst
         (unbacked
            <$> (filter keyedMode (allKeysOf desired)
                 ++ filter (λ k, state.KeyMode k = state.Identity)
                      (allKeysOf desired))) |}.

(** The diagnostic the encoder logs for a key of an invalid mode. *)
Definition invalidModeInfo (k : state.KeyState) : Diag :=
  Info_invalid_mode (apiserverconfigv1.Name (state.Key k)) (state.KeyMode k).

#[local] Instance validMode_dec m : Decision (validMode m).
Proof. destruct m; simpl; apply _. Defined.

(** The diagnostics the decoder logs for one wire entry. *)
Definition resourceLog
    (resourceConfig : apiserverconfigv1.ResourceConfiguration) : list Diag :=
  match apiserverconfigv1.Resources resourceConfig with
  | [resource] =>
      providerLog resource 0 (apiserverconfigv1.Providers resourceConfig)
  | resources => [Warning_invalid_encryption_config resources]
  end.

(** What a provider written by the encoder's main pass for the keys [keys]
    can be: the placeholder, or the AESCBC or SecretBox provider of one of
    the keys. *)
Definition mainProviderOf (keys : list state.KeyState)
    (p : apiserverconfigv1.ProviderConfiguration) : Prop :=
  p = identityProvider
  ∨ ∃ k, k ∈ keys
         ∧ (state.KeyMode k = state.AESCBC
            ∧ p = aescbcProvider (state.Key k)
            ∨ state.KeyMode k = state.SecretBox
              ∧ p = secretboxProvider (state.Key k)).

(** ** The encoder's loop in closed form *)

Lemma encodeKey_closed i key st :
  encodeKey i key st
  = {| providers := providers st ++ keyProviders i key;
       aesgcmProviders := aesgcmProviders st ++ keySentinels key;
       encoderLog := encoderLog st ++ keyLog key |}.
Proof.
  unfold encodeKey, keyProviders, keySentinels, keyLog.
  destruct st as [ps gs lg]; simpl.
  destruct (state.KeyMode key); simpl; rewrite ?app_nil_r; try done.
  by case_bool_decide; rewrite ?app_nil_r.
Qed.

Lemma encodeKeys_closed allKeys : ∀ i st,
  encodeKeys i allKeys st
  = {| providers := providers st ++ walkProviders i allKeys;
       aesgcmProviders := aesgcmProviders st ++ allKeys ≫= keySentinels;
       encoderLog := encoderLog st ++ allKeys ≫= keyLog |}.
Proof.
  induction allKeys as [|key rest IH]; intros i st.
  - destruct st; simpl. by rewrite !app_nil_r.
  - simpl. rewrite IH, encodeKey_closed. simpl.
    by rewrite <- !app_assoc.
Qed.

(** ** Maps with one entry *)

Lemma visits_singleton r desired entries :
  visits {[r := desired]} entries ↔ entries = [(r, desired)].
Proof.
  unfold visits. rewrite map_to_list_singleton. split.
  - apply Permutation_singleton_r.
  - by intros ->.
Qed.

Lemma FromEncryptionState_single r desired ps log :
  stateToProviders desired = (Returned ps, log) →
  FromEncryptionState [(r, desired)]
  = (Returned
       {| apiserverconfigv1.EC_Resources :=
            [{| apiserverconfigv1.Resources := [GroupResource_String r];
                apiserverconfigv1.Providers := ps |}] |}, log).
Proof.
  intros Henc. unfold FromEncryptionState. simpl. rewrite Henc. simpl.
  by rewrite app_nil_r.
Qed.

(** ** Claim C7 *)

(** C7: for every state without a write key and every resource, the provider
    list the encoder produces starts with the no-op placeholder. *)
Theorem C7_placeholder_first_without_write_key
    (desired : state.GroupResourceState) (r : schema.GroupResource)
    (entries : list (schema.GroupResource * state.GroupResourceState)) :
  state.HasWriteKey desired = false →
  visits {[r := desired]} entries →
  ∃ rest log,
    stateToProviders desired = (Returned (identityProvider :: rest), log)
    ∧ FromEncryptionState entries
      = (Returned
           {| apiserverconfigv1.EC_Resources :=
                [{| apiserverconfigv1.Resources := [GroupResource_String r];
                    apiserverconfigv1.Providers := identityProvider :: rest |}]
           |}, log).
Proof.
  intros Hw ->%visits_singleton.
  assert (∃ rest log,
    stateToProviders desired = (Returned (identityProvider :: rest), log))
    as (rest & log & Hs).
  { unfold stateToProviders. rewrite Hw, encodeKeys_closed. simpl. eauto. }
  exists rest, log. split; [done|]. by apply FromEncryptionState_single.
Qed.

(** ** Claim C10 *)

(** C10: an AESGCM provider with exactly one key whose secret is not the
    sentinel reaches the default branch of the decoder's switch: the state is
    left as it was and one diagnostic is logged. *)
Theorem C10_real_aesgcm_key_is_dropped
    (backedKeys : list state.KeyState) (resource : string) (i : nat)
    (k : apiserverconfigv1.Key)
    (acc : state.GroupResourceState * list Diag) :
  apiserverconfigv1.Secret k ≠ emptyStaticIdentityKey →
  classifyProvider (aesgcmProvider k) = InvalidProvider
  ∧ decodeProvider backedKeys resource i (aesgcmProvider k) acc
    = (acc.1, acc.2 ++ [Info_invalid_provider i resource]).
Proof.
  intros Hk.
  assert (classifyProvider (aesgcmProvider k) = InvalidProvider) as Hc.
  { unfold classifyProvider; simpl. by rewrite bool_decide_eq_false_2. }
  split; [done|]. unfold decodeProvider. by rewrite Hc.
Qed.

(** ** Claim C2 *)

(** When the encoder panics: exactly when there is a write key and the walk
    over the keys leaves [providers] empty. *)
Lemma stateToProviders_panics_iff (desired : state.GroupResourceState) :
  (stateToProviders desired).1 = Panicked
  ↔ state.HasWriteKey desired = true ∧ walkProviders 0 (allKeysOf desired) = [].
Proof.
  unfold stateToProviders. rewrite encodeKeys_closed. simpl.
  destruct (state.HasWriteKey desired); simpl.
  - destruct (walkProviders 0 (allKeysOf desired)); simpl.
    + by split.
    + split; [done|]. by intros [_ ?].
  - split; [done|]. by intros [? _].
Qed.

(** One state on which [stateToProviders] panics makes the encoder panic,
    wherever the range loop meets it. *)
Lemma encodeEntries_panics entries gr desired :
  (gr, desired) ∈ entries →
  (stateToProviders desired).1 = Panicked →
  (encodeEntries entries).1 = Panicked.
Proof.
  intros Hin Hp. induction entries as [|[gr' grKeys] rest IH];
    [by apply elem_of_nil in Hin|].
  simpl. apply elem_of_cons in Hin as [Heq|Hin].
  - simplify_eq. by destruct (stateToProviders grKeys) as [[ps|] lg].
  - specialize (IH Hin).
    destruct (stateToProviders grKeys) as [[ps|] lg]; [|done].
    by destruct (encodeEntries rest) as [[rcs|] lg'].
Qed.

(** C2, at the input the claim names: a write key with an invalid mode that is
    also the only key.  The key is skipped with its diagnostic, the provider
    list stays empty, and reading its first element panics; so does the
    encoder on every map that holds this state.  Without a write key the same
    key is skipped and the list is returned. *)
Theorem C2_invalid_write_key_panics
    (m : gmap schema.GroupResource state.GroupResourceState)
    (entries : list (schema.GroupResource * state.GroupResourceState))
    (r : schema.GroupResource) :
  state.HasWriteKey Sample.unsetMode = true
  ∧ stateToProviders Sample.unsetMode
    = (Panicked, [Info_invalid_mode "k1" (state.Other "")])
  ∧ (visits m entries → m !! r = Some Sample.unsetMode →
     (FromEncryptionState entries).1 = Panicked)
  ∧ stateToProviders Sample.unsetModeRead
    = (Returned [identityProvider],
       [Info_invalid_mode "k1" (state.Other "")]).
Proof.
  split; [done|]. split; [done|]. split; [|done].
  intros Hm Hr. unfold FromEncryptionState.
  assert ((encodeEntries entries).1 = Panicked) as Hp.
  { apply (encodeEntries_panics entries r Sample.unsetMode); [|done].
    unfold visits in Hm. rewrite Hm. by apply elem_of_map_to_list. }
  by destruct (encodeEntries entries) as [[rcs|] lg].
Qed.

(** The decoder has no failing path: its provider loop and its resource loop
    are total functions, and every provider is either recorded, skipped
    silently as the placeholder, or skipped with one diagnostic. *)
Lemma decodeProvider_cases backedKeys resource i provider acc :
  (∃ ks, classifyProvider provider = Decoded ks
         ∧ decodeProvider backedKeys resource i provider acc
           = (recordKey i (enrich backedKeys ks) acc.1, acc.2))
  ∨ (classifyProvider provider = FakeProvider
     ∧ decodeProvider backedKeys resource i provider acc = acc)
  ∨ (classifyProvider provider = InvalidProvider
     ∧ decodeProvider backedKeys resource i provider acc
       = (acc.1, acc.2 ++ [Info_invalid_provider i resource])).
Proof.
  unfold decodeProvider. destruct (classifyProvider provider); eauto.
Qed.

(** ** Claim C6 *)


Lemma EqualKeyAndEqualID_sameIdentity a b :
  state.EqualKeyAndEqualID a b = true ↔ sameIdentity a b.
Proof.
  unfold state.EqualKeyAndEqualID, sameIdentity.
  rewrite bool_decide_eq_true.
  destruct (state.Key a), (state.Key b); simpl.
  split; [by intros [-> ->]|by intros [= -> ->]].
Qed.



Lemma dropFirstEqual_sublist w l : dropFirstEqual w l `sublist_of` l.
Proof.
  induction l as [|k l IH]; [done|]. simpl.
  destruct (state.EqualKeyAndEqualID k w).
  - by apply sublist_cons.
  - by apply sublist_skip.
Qed.










(** ** Claim C9 *)

Lemma collectBackedKeys_closed keySecrets :
  collectBackedKeys keySecrets
  = (omap backedKeyOf keySecrets, omap warningOf keySecrets).
Proof.
  induction keySecrets as [|s rest IH]; [done|].
  simpl. rewrite IH. unfold backedKeyOf, warningOf.
  by destruct (ToKeyState s).
Qed.

Lemma backedKeyOf_Backed keySecrets :
  Forall (λ k, state.Backed k = true) (omap backedKeyOf keySecrets).
Proof.
  apply Forall_forall. intros k [s [_ Hs]]%list_elem_of_omap.
  unfold backedKeyOf in Hs. destruct (ToKeyState s); by simplify_eq.
Qed.

(** C9: with no wire configuration the decoder returns the empty resource map
    and the backed keys.  Every record that parses gives the key state it
    parses to with [Backed = true], every record that does not parse gives
    one warning and no key, and the list returned is what [SortRecentFirst]
    makes of these key states, so it is in most-recent-first order. *)
Theorem C9_absent_config_returns_backed_keys
    (recentFirst : relation state.KeyState) (keySecrets : list Secret) :
  reorders SortRecentFirst →
  ordersBy recentFirst SortRecentFirst →
  ∃ backedKeys parsed,
    ToEncryptionState None keySecrets
    = ((∅, backedKeys),
       omap (λ s, match ToKeyState s with
                  | Ok _ => None
                  | Err err => Some (Warning_invalid_secret err)
                  end) keySecrets)
    ∧ parsed
      = omap (λ s, match ToKeyState s with
                   | Ok km =>
                       Some {| state.Key := state.Key km;
                               state.KeyMode := state.KeyMode km;
                               state.Backed := true |}
                   | Err _ => None
                   end) keySecrets
    ∧ backedKeys = SortRecentFirst parsed
    ∧ backedKeys ≡ₚ parsed
    ∧ (∀ k, k ∈ backedKeys
            ↔ ∃ s km,
                s ∈ keySecrets ∧ ToKeyState s = Ok km
                ∧ k = {| state.Key := state.Key km;
                         state.KeyMode := state.KeyMode km;
                         state.Backed := true |})
    ∧ Forall (λ k, state.Backed k = true) backedKeys
    ∧ Sorted recentFirst backedKeys.
Proof.
  intros Hperm Hsorted.
  exists (SortRecentFirst (omap backedKeyOf keySecrets)),
    (omap backedKeyOf keySecrets).
  split; [|split; [done|split; [done|split; [apply Hperm|]]]].
  { unfold ToEncryptionState. by rewrite collectBackedKeys_closed. }
  split; [|split; [|apply Hsorted]].
  - intros k. rewrite (Hperm _), list_elem_of_omap. unfold backedKeyOf.
    split.
    + intros (s & Hs & Hk). destruct (ToKeyState s) as [km|] eqn:Hp;
        [|done]. exists s, km. by simplify_eq.
    + intros (s & km & Hs & Hp & ->). exists s. by rewrite Hp.
  - rewrite (Hperm _). apply backedKeyOf_Backed.
Qed.

(** ** Claim C8 *)

Lemma notAfter_le a b :
  notAfter a b ↔ String.le (firstResource a) (firstResource b).
Proof.
  unfold notAfter, less, String.le, String.ltb, String.leb.
  rewrite (String.compare_antisym (firstResource a) (firstResource b)).
  by destruct (String.compare (firstResource b) (firstResource a)).
Qed.

#[local] Instance notAfter_total : Total notAfter.
Proof.
  intros a b. rewrite !notAfter_le. apply (total String.le).
Qed.

#[local] Instance notAfter_trans : Transitive notAfter.
Proof.
  intros a b c. rewrite !notAfter_le. apply (transitivity (R:=String.le)).
Qed.

Lemma sort_Slice_sorted resourceConfigs :
  StronglySorted String.le (firstResource <$> sort_Slice resourceConfigs).
Proof.
  apply (StronglySorted_fmap _ notAfter String.le).
  - intros a b. apply notAfter_le.
  - apply (StronglySorted_merge_sort notAfter).
Qed.

Lemma sort_Slice_Permutation resourceConfigs :
  sort_Slice resourceConfigs ≡ₚ resourceConfigs.
Proof. apply merge_sort_Permutation. Qed.

(** Every entry the encoder builds names exactly the one resource of the map
    entry it comes from. *)
Lemma encodeEntries_resources entries : ∀ rcs log,
  encodeEntries entries = (Returned rcs, log) →
  apiserverconfigv1.Resources <$> rcs
  = (λ e, [GroupResource_String e.1]) <$> entries.
Proof.
  induction entries as [|[gr grKeys] rest IH]; intros rcs log Henc.
  - simpl in Henc. by simplify_eq.
  - simpl in Henc.
    destruct (stateToProviders grKeys) as [[ps|] lg]; [|done].
    destruct (encodeEntries rest) as [[rcs'|] lg']; [|done].
    simplify_eq. simpl. f_equal. by eapply IH.
Qed.

Lemma firstResource_of_resources (rcs : list _) (names : list string) :
  apiserverconfigv1.Resources <$> rcs = (λ n, [n]) <$> names →
  firstResource <$> rcs = names.
Proof.
  revert names. induction rcs as [|rc rcs IH]; intros [|n names] H;
    simplify_eq/=; [done|].
  unfold firstResource at 1. rewrite H. f_equal. by apply IH.
Qed.

Lemma encodeEntries_firstResource entries rcs log :
  encodeEntries entries = (Returned rcs, log) →
  firstResource <$> rcs = (λ e, GroupResource_String e.1) <$> entries.
Proof.
  intros H%encodeEntries_resources.
  apply firstResource_of_resources. rewrite H.
  by rewrite <- list_fmap_compose.
Qed.

(** C8: whatever order the range loop visits the map in, the entries of the
    wire configuration are in lexicographic order of their resource
    identifier, each names one resource of the map, and the sequence of
    identifiers is the same for every visiting order. *)
Theorem C8_resource_entries_sorted
    (m : gmap schema.GroupResource state.GroupResourceState)
    (entries : list (schema.GroupResource * state.GroupResourceState))
    (config : apiserverconfigv1.EncryptionConfiguration) (log : list Diag) :
  visits m entries →
  FromEncryptionState entries = (Returned config, log) →
  StronglySorted String.le
    (firstResource <$> apiserverconfigv1.EC_Resources config)
  ∧ Forall (λ rc, ∃ gr grKeys,
              m !! gr = Some grKeys
              ∧ apiserverconfigv1.Resources rc = [GroupResource_String gr])
      (apiserverconfigv1.EC_Resources config)
  ∧ ∀ entries' config' log',
      visits m entries' →
      FromEncryptionState entries' = (Returned config', log') →
      firstResource <$> apiserverconfigv1.EC_Resources config'
      = firstResource <$> apiserverconfigv1.EC_Resources config.
Proof.
  unfold visits. intros Hm Henc. unfold FromEncryptionState in Henc.
  destruct (encodeEntries entries) as [[rcs|] lg] eqn:Hrcs; [|done].
  simplify_eq. simpl.
  split; [apply sort_Slice_sorted|]. split.
  - rewrite sort_Slice_Permutation.
    pose proof (encodeEntries_resources _ _ _ Hrcs) as Hres.
    apply Forall_forall. intros rc Hrc.
    assert (apiserverconfigv1.Resources rc
            ∈ apiserverconfigv1.Resources <$> rcs) as Hin
      by (by apply list_elem_of_fmap_2).
    rewrite Hres in Hin.
    apply list_elem_of_fmap in Hin as ([gr grKeys] & -> & Hin).
    exists gr, grKeys. split; [|done].
    rewrite Hm in Hin. by apply elem_of_map_to_list in Hin.
  - intros entries' config' log' Hm' Henc'.
    unfold FromEncryptionState in Henc'.
    destruct (encodeEntries entries') as [[rcs'|] lg'] eqn:Hrcs'; [|done].
    simplify_eq. simpl.
    apply (StronglySorted_unique String.le);
      [apply sort_Slice_sorted..|].
    rewrite !sort_Slice_Permutation.
    rewrite (encodeEntries_firstResource _ _ _ Hrcs),
      (encodeEntries_firstResource _ _ _ Hrcs').
    by rewrite Hm, Hm'.
Qed.

(** ** The decoder's loop in closed form *)

Lemma HasWriteKey_false grState :
  state.HasWriteKey grState = false →
  state.WriteKey grState = state.zeroKeyState.
Proof.
  unfold state.HasWriteKey. intros H%bool_decide_eq_false.
  by destruct (decide (state.WriteKey grState = state.zeroKeyState)).
Qed.

Lemma HasWriteKey_true w l :
  w ≠ state.zeroKeyState →
  state.HasWriteKey {| state.WriteKey := w; state.ReadKeys := l |} = true.
Proof. intros. unfold state.HasWriteKey. by apply bool_decide_eq_true_2. Qed.

Lemma firstIdentity_cons k keys :
  firstIdentity (k :: keys)
  = if decide (state.KeyMode k = state.Identity) then Some k
    else firstIdentity keys.
Proof. unfold firstIdentity. rewrite filter_cons. by case_decide. Qed.

Lemma decodedKeys_cons backedKeys p rest :
  decodedKeys backedKeys (p :: rest)
  = match classifyProvider p with
    | Decoded ks => enrich backedKeys ks :: decodedKeys backedKeys rest
    | _ => decodedKeys backedKeys rest
    end.
Proof.
  unfold decodedKeys. simpl. unfold decodedKey at 1.
  by destruct (classifyProvider p).
Qed.

(** From index 1 on: every decoded key is appended to ReadKeys, and a state
    without a write key takes the first Identity-mode key. *)
Lemma decodeProviders_tail backedKeys resource providers : ∀ i grState log,
  decodeProviders backedKeys resource (S i) providers (grState, log)
  = ({| state.WriteKey :=
          if state.HasWriteKey grState then state.WriteKey grState
          else default state.zeroKeyState
                 (firstIdentity (decodedKeys backedKeys providers));
        state.ReadKeys :=
          state.ReadKeys grState ++ decodedKeys backedKeys providers |},
     log ++ providerLog resource (S i) providers).
Proof.
  induction providers as [|p rest IH]; intros i grState log.
  - simpl. rewrite !app_nil_r. destruct grState as [w l]; simpl.
    destruct (state.HasWriteKey _) eqn:Hw; [done|].
    apply HasWriteKey_false in Hw. simpl in Hw. by subst.
  - rewrite decodedKeys_cons. simpl. unfold decodeProvider.
    destruct (classifyProvider p) as [ks| |]; simpl;
      rewrite IH; simpl; rewrite <- ?app_assoc; try done.
    rewrite firstIdentity_cons. unfold recordKey, state.HasWriteKey; simpl.
    destruct (bool_decide (state.KeyMode (enrich backedKeys ks)
                           = state.Identity)) eqn:Hm;
      destruct (bool_decide (state.WriteKey grState ≠ state.zeroKeyState))
        eqn:Hw; simpl; rewrite ?Hw; try done.
    + apply bool_decide_eq_true in Hm. rewrite decide_True by done.
      rewrite bool_decide_eq_true_2; [done|].
      intros Hz. by rewrite Hz in Hm.
    + apply bool_decide_eq_false in Hm. by rewrite decide_False by done.
Qed.

(** A key that came out of the switch, enriched by keys that are all backed,
    is never the zero key state. *)
Lemma enrich_cases backedKeys ks :
  enrich backedKeys ks = ks ∨ enrich backedKeys ks ∈ backedKeys.
Proof.
  induction backedKeys as [|k rest IH]; simpl; [by left|].
  destruct (state.EqualKeyAndEqualID ks k).
  - right. apply list_elem_of_here.
  - destruct IH as [->|?]; [by left|right]. by apply list_elem_of_further.
Qed.

Lemma classifyProvider_mode provider ks :
  classifyProvider provider = Decoded ks →
  validMode (state.KeyMode ks) ∧ state.Backed ks = false.
Proof.
  unfold classifyProvider.
  repeat (case_match; try done); intros; by simplify_eq.
Qed.

Lemma enrich_nonzero backedKeys provider ks :
  Forall (λ k, state.Backed k = true) backedKeys →
  classifyProvider provider = Decoded ks →
  enrich backedKeys ks ≠ state.zeroKeyState.
Proof.
  intros Hb [Hm _]%classifyProvider_mode Hz.
  destruct (enrich_cases backedKeys ks) as [He|He].
  - rewrite He in Hz. by rewrite Hz in Hm.
  - rewrite Forall_forall in Hb. apply Hb in He. by rewrite Hz in He.
Qed.

(** The whole loop, started as the decoder starts it. *)
Lemma decodeProviders_closed backedKeys resource providers log :
  Forall (λ k, state.Backed k = true) backedKeys →
  decodeProviders backedKeys resource 0 providers
    (state.zeroGroupResourceState, log)
  = ({| state.WriteKey := writeKeyDecoded backedKeys providers;
        state.ReadKeys := decodedKeys backedKeys providers |},
     log ++ providerLog resource 0 providers).
Proof.
  intros Hb. destruct providers as [|p rest].
  - simpl. by rewrite app_nil_r.
  - rewrite decodedKeys_cons. simpl. unfold decodeProvider.
    destruct (classifyProvider p) as [ks| |] eqn:Hp; simpl;
      rewrite decodeProviders_tail; simpl; rewrite <- ?app_assoc; try done.
    unfold recordKey; simpl.
    rewrite HasWriteKey_true; [done|]. by eapply enrich_nonzero.
Qed.

Lemma decodeResourceConfig_closed backedKeys resourceConfig resource acc :
  Forall (λ k, state.Backed k = true) backedKeys →
  apiserverconfigv1.Resources resourceConfig = [resource] →
  decodeResourceConfig backedKeys resourceConfig acc
  = (<[ParseGroupResource resource :=
         {| state.WriteKey :=
              writeKeyDecoded backedKeys
                (apiserverconfigv1.Providers resourceConfig);
            state.ReadKeys :=
              SortRecentFirst
                (decodedKeys backedKeys
                   (apiserverconfigv1.Providers resourceConfig)) |}]> acc.1,
     acc.2 ++ providerLog resource 0
                (apiserverconfigv1.Providers resourceConfig)).
Proof.
  intros Hb Hr. unfold decodeResourceConfig. rewrite Hr.
  by rewrite decodeProviders_closed.
Qed.

Lemma reorders_nil : reorders SortRecentFirst → SortRecentFirst [] = [].
Proof. intros H. apply Permutation_nil_r. by rewrite (H []). Qed.

Lemma reorders_singleton k :
  reorders SortRecentFirst → SortRecentFirst [k] = [k].
Proof. intros H. apply Permutation_singleton_r. by rewrite (H [k]). Qed.

(** The backed keys the decoder works with all have [Backed = true]. *)
Lemma collected_keys_Backed keySecrets :
  reorders SortRecentFirst →
  Forall (λ k, state.Backed k = true)
    (SortRecentFirst (collectBackedKeys keySecrets).1).
Proof.
  intros H. rewrite (H _), collectBackedKeys_closed. apply backedKeyOf_Backed.
Qed.

(** ** Claim C3 *)

(** C3, amended: for a resource entry that names one resource, the key
    decoded at provider position 0 is the write key; when position 0 gave no
    key - it held the placeholder, or an invalid provider that was skipped,
    or there is no provider - the write key is the first Identity-mode key
    decoded later, and it stays unset when there is none.  The entry is
    stored under the parsed resource, with every decoded key among its read
    keys. *)
Theorem C3_write_key_determination
    (backedKeys : list state.KeyState)
    (resourceConfig : apiserverconfigv1.ResourceConfiguration)
    (resource : string)
    (acc : gmap schema.GroupResource state.GroupResourceState * list Diag) :
  Forall (λ k, state.Backed k = true) backedKeys →
  apiserverconfigv1.Resources resourceConfig = [resource] →
  ∃ grState,
    (decodeResourceConfig backedKeys resourceConfig acc).1
      !! ParseGroupResource resource = Some grState
    ∧ state.ReadKeys grState
      = SortRecentFirst
          (decodedKeys backedKeys (apiserverconfigv1.Providers resourceConfig))
    ∧ state.WriteKey grState
      = match apiserverconfigv1.Providers resourceConfig with
        | [] => state.zeroKeyState
        | first :: rest =>
            match classifyProvider first with
            | Decoded ks => enrich backedKeys ks
            | FakeProvider | InvalidProvider =>
                default state.zeroKeyState
                  (firstIdentity (decodedKeys backedKeys rest))
            end
        end.
Proof.
  intros Hb Hr. eexists. split; [|split].
  - rewrite (decodeResourceConfig_closed _ _ _ _ Hb Hr). simpl.
    apply lookup_insert_eq.
  - done.
  - done.
Qed.

(** ** Claim C4 *)

Lemma classifyProvider_identity :
  classifyProvider identityProvider = FakeProvider.
Proof. reflexivity. Qed.

Lemma classifyProvider_aescbc k :
  classifyProvider (aescbcProvider k)
  = Decoded {| state.Key := k; state.KeyMode := state.AESCBC;
               state.Backed := false |}.
Proof. reflexivity. Qed.

Lemma classifyProvider_secretbox k :
  classifyProvider (secretboxProvider k)
  = Decoded {| state.Key := k; state.KeyMode := state.SecretBox;
               state.Backed := false |}.
Proof. reflexivity. Qed.

Lemma classifyProvider_aesgcm_sentinel k :
  apiserverconfigv1.Secret k = emptyStaticIdentityKey →
  classifyProvider (aesgcmProvider k)
  = Decoded {| state.Key := k; state.KeyMode := state.Identity;
               state.Backed := false |}.
Proof.
  intros Hk. unfold classifyProvider; simpl.
  by rewrite bool_decide_eq_true_2.
Qed.

(** Decoding a configuration with one resource entry and no persisted
    records. *)
Lemma ToEncryptionState_single resource providers :
  reorders SortRecentFirst →
  ToEncryptionState
    (Some {| apiserverconfigv1.EC_Resources :=
               [{| apiserverconfigv1.Resources := [resource];
                   apiserverconfigv1.Providers := providers |}] |}) []
  = (({[ParseGroupResource resource :=
          {| state.WriteKey := writeKeyDecoded [] providers;
             state.ReadKeys := SortRecentFirst (decodedKeys [] providers) |}]},
      []),
     providerLog resource 0 providers).
Proof.
  intros Hperm. unfold ToEncryptionState. simpl.
  rewrite (reorders_nil Hperm). simpl.
  by rewrite (decodeResourceConfig_closed [] _ resource).
Qed.

(** The encoder on the scenario: the placeholder is emitted once for the
    missing write key and once more for the Identity-mode key at position 0
    of the walked keys. *)
Lemma stateToProviders_identityOnly :
  stateToProviders identityOnly
  = (Returned
       [identityProvider; identityProvider;
        aesgcmProvider
          {| apiserverconfigv1.Name := "k1";
             apiserverconfigv1.Secret := emptyStaticIdentityKey |}], []).
Proof. reflexivity. Qed.

(** C4, amended: for the resource "secrets" with no write key and the single
    Identity-mode read key k1, the encoder's provider list begins with the
    placeholder and ends with the AESGCM provider that carries k1 with the
    sentinel, with nothing but placeholders in between; decoding that output
    makes k1 the write key and the only read key. *)
Theorem C4_identity_read_key_scenario
    (entries : list (schema.GroupResource * state.GroupResourceState)) :
  reorders SortRecentFirst →
  visits {[Sample.secretsResource := identityOnly]} entries →
  ∃ placeholders config,
    stateToProviders identityOnly
    = (Returned
         (identityProvider
            :: placeholders
            ++ [aesgcmProvider
                  {| apiserverconfigv1.Name := "k1";
                     apiserverconfigv1.Secret := emptyStaticIdentityKey |}]),
       [])
    ∧ Forall (λ p, p = identityProvider) placeholders
    ∧ FromEncryptionState entries = (Returned config, [])
    ∧ ToEncryptionState (Some config) []
      = (({[ParseGroupResource
              (GroupResource_String Sample.secretsResource) :=
              {| state.WriteKey :=
                   Sample.key "k1" emptyStaticIdentityKey state.Identity;
                 state.ReadKeys :=
                   [Sample.key "k1" emptyStaticIdentityKey state.Identity]
              |}]}, []), []).
Proof.
  intros Hperm ->%visits_singleton.
  exists [identityProvider],
    {| apiserverconfigv1.EC_Resources :=
         [{| apiserverconfigv1.Resources :=
               [GroupResource_String Sample.secretsResource];
             apiserverconfigv1.Providers :=
               [identityProvider; identityProvider;
                aesgcmProvider
                  {| apiserverconfigv1.Name := "k1";
                     apiserverconfigv1.Secret := emptyStaticIdentityKey |}]
         |}] |}.
  split; [apply stateToProviders_identityOnly|].
  split; [by apply Forall_singleton|].
  split; [reflexivity|].
  rewrite (ToEncryptionState_single _ _ Hperm).
  unfold writeKeyDecoded, decodedKeys, decodedKey; simpl.
  rewrite classifyProvider_aesgcm_sentinel by done. simpl.
  by rewrite (reorders_singleton _ Hperm).
Qed.

(** ** The encoder in closed form *)

Lemma stateToProviders_closed (desired : state.GroupResourceState) :
  stateToProviders desired
  = let main :=
      (if state.HasWriteKey desired then [] else [identityProvider])
      ++ walkProviders 0 (allKeysOf desired) in
    match main with
    | [] => (Panicked, allKeysOf desired ≫= keyLog)
    | first :: _ =>
        (Returned
           (match apiserverconfigv1.Identity first with
            | None => main ++ [identityProvider]
            | Some _ => main
            end ++ allKeysOf desired ≫= keySentinels),
         allKeysOf desired ≫= keyLog)
    end.
Proof. unfold stateToProviders. by rewrite encodeKeys_closed. Qed.

Lemma stateToProviders_sentinels desired ps log :
  stateToProviders desired = (Returned ps, log) →
  ∃ main, ps = main ++ allKeysOf desired ≫= keySentinels.
Proof.
  rewrite stateToProviders_closed. simpl.
  destruct (_ ++ walkProviders 0 (allKeysOf desired)) as [|first main];
    [done|].
  intros; simplify_eq. eauto.
Qed.

Lemma elem_of_dropFirstEqual k w l :
  k ∈ l → k ∈ dropFirstEqual w l ∨ state.EqualKeyAndEqualID k w = true.
Proof.
  induction l as [|k' l IH]; [by intros ?%elem_of_nil|].
  intros [Heq|Hin]%elem_of_cons; simpl.
  - subst k'.
    destruct (state.EqualKeyAndEqualID k w) eqn:Hk; [by right|left].
    apply list_elem_of_here.
  - destruct (state.EqualKeyAndEqualID k' w) eqn:Hk'; [by left|].
    destruct (IH Hin) as [?|?]; [left|by right].
    by apply list_elem_of_further.
Qed.

Lemma elem_of_keySentinels k keys :
  k ∈ keys → state.KeyMode k = state.Identity →
  aesgcmProvider (state.Key k) ∈ keys ≫= keySentinels.
Proof.
  intros Hin Hm. apply list_elem_of_bind. exists k. split; [|done].
  unfold keySentinels. rewrite Hm. apply list_elem_of_here.
Qed.

(** ** Claim C5 *)

(** C5, amended: whenever the encoder returns, every Identity-mode read key
    that is not cut out as the duplicate of a write key of another mode has
    an AESGCM provider in the list, and that provider carries the key's own
    name and its own secret: the encoder does not put the sentinel there.
    Decoding the provider gives Mode = Identity with the same name when that
    secret is the sentinel; otherwise the provider is an invalid one. *)
Theorem C5_identity_keys_travel_as_aesgcm
    (desired : state.GroupResourceState)
    (ps : list apiserverconfigv1.ProviderConfiguration) (log : list Diag)
    (k : state.KeyState) :
  stateToProviders desired = (Returned ps, log) →
  k ∈ state.ReadKeys desired →
  state.KeyMode k = state.Identity →
  (state.HasWriteKey desired = true → sameIdentity k (state.WriteKey desired) →
   state.KeyMode (state.WriteKey desired) = state.Identity) →
  aesgcmProvider (state.Key k) ∈ ps
  ∧ (apiserverconfigv1.Secret (state.Key k) = emptyStaticIdentityKey →
     classifyProvider (aesgcmProvider (state.Key k))
     = Decoded {| state.Key := state.Key k; state.KeyMode := state.Identity;
                  state.Backed := false |})
  ∧ (apiserverconfigv1.Secret (state.Key k) ≠ emptyStaticIdentityKey →
     classifyProvider (aesgcmProvider (state.Key k)) = InvalidProvider).
Proof.
  intros Henc Hin Hm Hdup. split; [|split].
  - apply stateToProviders_sentinels in Henc as [main ->].
    apply elem_of_app. right. unfold allKeysOf.
    destruct (state.HasWriteKey desired) eqn:Hw.
    + destruct (elem_of_dropFirstEqual k (state.WriteKey desired) _ Hin)
        as [Hk|Hk].
      * apply elem_of_keySentinels; [|done]. by apply list_elem_of_further.
      * apply EqualKeyAndEqualID_sameIdentity in Hk.
        rewrite Hk. apply elem_of_keySentinels; [apply list_elem_of_here|].
        by apply Hdup.
    + by apply elem_of_keySentinels.
  - apply classifyProvider_aesgcm_sentinel.
  - intros Hk. unfold classifyProvider; simpl.
    by rewrite bool_decide_eq_false_2.
Qed.

(** ** Decoding what the encoder wrote *)

Lemma decodedKeys_app backedKeys l1 l2 :
  decodedKeys backedKeys (l1 ++ l2)
  = decodedKeys backedKeys l1 ++ decodedKeys backedKeys l2.
Proof. apply omap_app. Qed.

(** The providers of the main pass decode to the AESCBC and SecretBox keys;
    the placeholder an Identity-mode key adds at position 0 decodes to
    nothing. *)
Lemma decodedKeys_walkProviders keys : ∀ i,
  decodedKeys [] (walkProviders i keys) = unbacked <$> filter keyedMode keys.
Proof.
  induction keys as [|k keys IH]; intros i; [done|].
  simpl. rewrite decodedKeys_app, IH, filter_cons.
  unfold keyProviders. destruct (decide (keyedMode k)) as [Hk|Hk].
  - rewrite fmap_cons. unfold unbacked at 2.
    by destruct Hk as [Hm|Hm]; rewrite Hm.
  - destruct (state.KeyMode k) eqn:Hm.
    + destruct Hk. by left.
    + destruct Hk. by right.
    + by case_bool_decide.
    + done.
Qed.

(** The sentinel providers decode to the Identity-mode keys, when each of
    them carries the sentinel. *)
Lemma decodedKeys_keySentinels keys :
  Forall sentinelIfIdentity keys →
  decodedKeys [] (keys ≫= keySentinels)
  = unbacked <$> filter (λ k, state.KeyMode k = state.Identity) keys.
Proof.
  induction 1 as [|k keys Hk _ IH]; [done|].
  rewrite bind_cons, decodedKeys_app, IH, filter_cons.
  unfold keySentinels. case_decide as Hm.
  - rewrite Hm, decodedKeys_cons.
    rewrite classifyProvider_aesgcm_sentinel by by apply Hk.
    simpl. unfold unbacked at 2. by rewrite Hm.
  - by destruct (state.KeyMode k).
Qed.

Lemma decodedKeys_stateToProviders desired ps log :
  stateToProviders desired = (Returned ps, log) →
  Forall sentinelIfIdentity (allKeysOf desired) →
  decodedKeys [] ps
  = unbacked
      <$> (filter keyedMode (allKeysOf desired)
           ++ filter (λ k, state.KeyMode k = state.Identity)
                (allKeysOf desired)).
Proof.
  rewrite stateToProviders_closed. simpl. intros Henc Hs.
  assert (∀ main,
    decodedKeys []
      (((if state.HasWriteKey desired then [] else [identityProvider])
        ++ walkProviders 0 (allKeysOf desired))
       ++ main ++ allKeysOf desired ≫= keySentinels)
    = (unbacked <$> filter keyedMode (allKeysOf desired))
      ++ decodedKeys [] main
      ++ (unbacked
            <$> filter (λ k, state.KeyMode k = state.Identity)
                  (allKeysOf desired)))
    as Hdec.
  { intros main. rewrite !decodedKeys_app, decodedKeys_walkProviders,
      decodedKeys_keySentinels by done.
    by destruct (state.HasWriteKey desired). }
  destruct (_ ++ walkProviders 0 (allKeysOf desired))
    as [|first main] eqn:Hmain; [done|].
  rewrite fmap_app. destruct (apiserverconfigv1.Identity first);
    simplify_eq.
  - exact (Hdec []).
  - rewrite <- app_assoc. exact (Hdec [identityProvider]).
Qed.

Lemma firstIdentity_keyed keys rest :
  firstIdentity ((unbacked <$> filter keyedMode keys) ++ rest)
  = firstIdentity rest.
Proof.
  induction keys as [|k keys IH]; [done|].
  rewrite filter_cons. case_decide as Hk; [|done].
  rewrite fmap_cons, <- app_comm_cons, firstIdentity_cons.
  rewrite decide_False; [done|].
  simpl. by destruct Hk as [-> | ->].
Qed.

(** Every key of a valid mode comes back, under its own name and secret. *)
Lemma decoded_identities keys key :
  Forall (λ k, validMode (state.KeyMode k)) keys →
  key ∈ state.Key
          <$> (unbacked
                 <$> (filter keyedMode keys
                      ++ filter (λ k, state.KeyMode k = state.Identity) keys))
  ↔ key ∈ state.Key <$> keys.
Proof.
  intros Hv. rewrite <- list_fmap_compose.
  rewrite !list_elem_of_fmap. split.
  - intros (k & -> & Hk). exists k. split; [done|].
    by apply elem_of_app in Hk as [[? ?]%list_elem_of_filter
                                  |[? ?]%list_elem_of_filter].
  - intros (k & -> & Hk). exists k. split; [done|].
    rewrite Forall_forall in Hv. specialize (Hv k Hk).
    apply elem_of_app. rewrite !list_elem_of_filter. unfold keyedMode.
    destruct (state.KeyMode k); [left|left|right|done]; split; auto.
Qed.

(** The walked keys have the identities of ReadKeys, when the write key is
    one of the read keys. *)
Lemma allKeys_identities w l key :
  (∃ k, k ∈ l ∧ sameIdentity k w) →
  key ∈ state.Key <$> (w :: dropFirstEqual w l) ↔ key ∈ state.Key <$> l.
Proof.
  intros (k0 & Hk0 & Hsame). rewrite fmap_cons, elem_of_cons.
  rewrite !list_elem_of_fmap. split.
  - intros [->|(k & -> & Hk)].
    + exists k0. by split.
    + exists k. split; [done|].
      eapply elem_of_sublist; [done|apply dropFirstEqual_sublist].
  - intros (k & -> & Hk).
    destruct (elem_of_dropFirstEqual k w l Hk) as [?|Heq].
    + right. by exists k.
    + left. by apply EqualKeyAndEqualID_sameIdentity.
Qed.

Lemma Forall_dropFirstEqual (P : state.KeyState → Prop) w l :
  Forall P l → Forall P (dropFirstEqual w l).
Proof.
  rewrite !Forall_forall. intros H k Hk. apply H.
  eapply elem_of_sublist; [done|apply dropFirstEqual_sublist].
Qed.

Lemma allKeysOf_write_key desired :
  state.HasWriteKey desired = true →
  allKeysOf desired
  = state.WriteKey desired
      :: dropFirstEqual (state.WriteKey desired) (state.ReadKeys desired).
Proof. intros Hw. unfold allKeysOf. by rewrite Hw. Qed.

(** With a write key of a valid mode the encoder returns, and decoding its
    providers gives the write key back. *)
Lemma stateToProviders_write_key desired :
  state.HasWriteKey desired = true →
  validMode (state.KeyMode (state.WriteKey desired)) →
  sentinelIfIdentity (state.WriteKey desired) →
  ∃ ps log,
    stateToProviders desired = (Returned ps, log)
    ∧ writeKeyDecoded [] ps = unbacked (state.WriteKey desired).
Proof.
  intros Hw Hv Hs.
  rewrite stateToProviders_closed, (allKeysOf_write_key _ Hw), Hw.
  simpl. unfold keyProviders, unbacked.
  destruct (state.KeyMode (state.WriteKey desired)) eqn:Hm; [..|done]; simpl.
  - eauto.
  - eauto.
  - do 2 eexists. split; [done|]. simpl.
    rewrite decodedKeys_app, decodedKeys_walkProviders, firstIdentity_keyed.
    unfold keySentinels at 1. rewrite Hm, <- app_comm_cons, app_nil_l.
    rewrite decodedKeys_cons, classifyProvider_aesgcm_sentinel by auto.
    by rewrite firstIdentity_cons.
Qed.

(** ** Claim C1 *)

(** C1, amended: let the state [desired] have a write key, let each of its
    keys have one of the three modes, let each of its Identity-mode keys
    carry the sentinel as its secret, and let the write key be one of the
    read keys.  Then encoding the map with the single entry [r ↦ desired]
    returns, and decoding the result with no persisted records gives an entry
    for [r] whose write key has the name and secret of [desired]'s write key
    and whose read keys have the names and secrets of [desired]'s read
    keys. *)
Theorem C1_round_trip_identities
    (r : schema.GroupResource) (desired : state.GroupResourceState)
    (entries : list (schema.GroupResource * state.GroupResourceState)) :
  reorders SortRecentFirst →
  ParseGroupResource (GroupResource_String r) = r →
  state.HasWriteKey desired = true →
  Forall (λ k, validMode (state.KeyMode k))
    (state.WriteKey desired :: state.ReadKeys desired) →
  Forall sentinelIfIdentity (state.WriteKey desired :: state.ReadKeys desired) →
  (∃ k, k ∈ state.ReadKeys desired ∧ sameIdentity k (state.WriteKey desired)) →
  visits {[r := desired]} entries →
  ∃ config log decoded,
    FromEncryptionState entries = (Returned config, log)
    ∧ (ToEncryptionState (Some config) []).1.1 !! r = Some decoded
    ∧ sameIdentity (state.WriteKey decoded) (state.WriteKey desired)
    ∧ ∀ key,
        key ∈ state.Key <$> state.ReadKeys decoded
        ↔ key ∈ state.Key <$> state.ReadKeys desired.
Proof.
  intros Hperm Hparse Hw Hvalid Hsent Hdup ->%visits_singleton.
  apply Forall_cons in Hvalid as [Hvw Hvr].
  apply Forall_cons in Hsent as [Hsw Hsr].
  destruct (stateToProviders_write_key desired Hw Hvw Hsw)
    as (ps & log & Henc & Hwk).
  exists
    {| apiserverconfigv1.EC_Resources :=
         [{| apiserverconfigv1.Resources := [GroupResource_String r];
             apiserverconfigv1.Providers := ps |}] |}, log.
  eexists. split; [|split; [|split]].
  - by apply FromEncryptionState_single.
  - rewrite (ToEncryptionState_single _ _ Hperm). simpl.
    rewrite Hparse. apply lookup_singleton_eq.
  - simpl. by rewrite Hwk.
  - intros key. simpl. rewrite (Hperm _).
    rewrite (decodedKeys_stateToProviders _ _ _ Henc).
    + rewrite decoded_identities.
      * rewrite (allKeysOf_write_key _ Hw). by apply allKeys_identities.
      * rewrite (allKeysOf_write_key _ Hw).
        apply Forall_cons. split; [done|]. by apply Forall_dropFirstEqual.
    + rewrite (allKeysOf_write_key _ Hw).
      apply Forall_cons. split; [done|]. by apply Forall_dropFirstEqual.
Qed.

(** ** When the encoder returns *)

Lemma keyProviders_nil_head k :
  keyProviders 0 k = [] ↔ ¬ validMode (state.KeyMode k).
Proof.
  unfold keyProviders. destruct (state.KeyMode k); simpl.
  - split; [done|]. intros H. by destruct H.
  - split; [done|]. intros H. by destruct H.
  - split; [done|]. intros H. by destruct H.
  - split; [|done]. by intros _ H.
Qed.

Lemma keyProviders_nil_tail i k :
  keyProviders (S i) k = [] ↔ ¬ keyedMode k.
Proof.
  unfold keyProviders, keyedMode. destruct (state.KeyMode k); simpl.
  - split; [done|]. intros H. destruct H. by left.
  - split; [done|]. intros H. destruct H. by right.
  - split; [|done]. by intros _ [|].
  - split; [|done]. by intros _ [|].
Qed.

Lemma walkProviders_nil_tail keys : ∀ i,
  walkProviders (S i) keys = [] ↔ Forall (λ k, ¬ keyedMode k) keys.
Proof.
  induction keys as [|k keys IH]; intros i; simpl.
  - split; [by constructor|done].
  - rewrite Forall_cons, <- (IH (S i)), <- (keyProviders_nil_tail i k).
    split.
    + by intros [? ?]%app_eq_nil.
    + by intros [-> ->].
Qed.

(** X1: [stateToProviders] panics exactly when there is a write key whose
    mode is none of the three, and no key left of ReadKeys after the write
    key's duplicate is cut out has mode AESCBC or SecretBox. *)
Theorem X1_stateToProviders_panics_by_modes
    (desired : state.GroupResourceState) :
  (stateToProviders desired).1 = Panicked
  ↔ state.HasWriteKey desired = true
    ∧ ¬ validMode (state.KeyMode (state.WriteKey desired))
    ∧ Forall (λ k, ¬ keyedMode k)
        (dropFirstEqual (state.WriteKey desired) (state.ReadKeys desired)).
Proof.
  rewrite stateToProviders_panics_iff. unfold allKeysOf.
  destruct (state.HasWriteKey desired); simpl.
  - rewrite <- keyProviders_nil_head, <- (walkProviders_nil_tail _ 0).
    split.
    + by intros [? [? ?]%app_eq_nil].
    + by intros [? [-> ->]].
  - split; by intros [? _].
Qed.

Lemma encodeEntries_mapM entries :
  (encodeEntries entries).1
  = match mapM encodeEntry entries with
    | Some rcs => Returned rcs
    | None => Panicked
    end.
Proof.
  induction entries as [|[gr grKeys] rest IH]; [done|].
  change (mapM encodeEntry ((gr, grKeys) :: rest))
    with (encodeEntry (gr, grKeys)
          ≫= λ y, mapM encodeEntry rest ≫= λ k, mret (y :: k)).
  destruct (encodeEntry (gr, grKeys)) as [rc|] eqn:Hrc;
    unfold encodeEntry in Hrc; simpl in Hrc; simpl;
    destruct (stateToProviders grKeys) as [[ps|] lg]; simplify_eq/=;
    [|done].
  destruct (encodeEntries rest) as [[rcs|] lg']; simpl in *;
    by destruct (mapM encodeEntry rest); simplify_eq.
Qed.

Lemma encodeEntry_None entry :
  encodeEntry entry = None ↔ (stateToProviders entry.2).1 = Panicked.
Proof.
  unfold encodeEntry. by destruct ((stateToProviders entry.2).1).
Qed.

Lemma FromEncryptionState_mapM entries :
  (FromEncryptionState entries).1
  = match mapM encodeEntry entries with
    | Some rcs =>
        Returned {| apiserverconfigv1.EC_Resources := sort_Slice rcs |}
    | None => Panicked
    end.
Proof.
  pose proof (encodeEntries_mapM entries) as H.
  unfold FromEncryptionState.
  destruct (encodeEntries entries) as [[rcs|] lg]; simpl in *;
    by destruct (mapM encodeEntry entries); simplify_eq.
Qed.

(** X2: [FromEncryptionState] panics exactly when [stateToProviders] panics
    on the state of some resource of the map, whatever the order in which the
    map is visited. *)
Theorem X2_FromEncryptionState_panics_iff
    (m : gmap schema.GroupResource state.GroupResourceState)
    (entries : list (schema.GroupResource * state.GroupResourceState)) :
  visits m entries →
  (FromEncryptionState entries).1 = Panicked
  ↔ ∃ gr desired,
      m !! gr = Some desired ∧ (stateToProviders desired).1 = Panicked.
Proof.
  unfold visits. intros Hm. rewrite FromEncryptionState_mapM.
  destruct (mapM encodeEntry entries) as [rcs|] eqn:Hrcs.
  - split; [done|]. intros (gr & desired & Hgr & Hp). exfalso.
    assert (is_Some (mapM encodeEntry entries)) as Hs by eauto.
    rewrite mapM_is_Some, Forall_forall in Hs.
    destruct (Hs (gr, desired)) as [rc Hrc].
    + rewrite Hm. by apply elem_of_map_to_list.
    + simpl in Hrc. assert (encodeEntry (gr, desired) = None) as Hn
        by by apply encodeEntry_None.
      by rewrite Hn in Hrc.
  - split; [|done]. intros _.
    apply mapM_None, Exists_exists in Hrcs as ([gr desired] & Hin & Hn).
    exists gr, desired. split.
    + rewrite Hm in Hin. by apply elem_of_map_to_list in Hin.
    + by apply encodeEntry_None in Hn.
Qed.

(** ** The shape of the provider list *)

(** X3: with a write key of one of the three modes [stateToProviders]
    returns, and the first provider of its list is the write key's own
    AESCBC or SecretBox provider, or the placeholder when the write key has
    mode Identity. *)
Theorem X3_first_provider_is_the_write_key
    (desired : state.GroupResourceState) :
  state.HasWriteKey desired = true →
  validMode (state.KeyMode (state.WriteKey desired)) →
  ∃ rest log,
    stateToProviders desired
    = (Returned
         (match state.KeyMode (state.WriteKey desired) with
          | state.AESCBC => aescbcProvider (state.Key (state.WriteKey desired))
          | state.SecretBox =>
              secretboxProvider (state.Key (state.WriteKey desired))
          | _ => identityProvider
          end :: rest), log).
Proof.
  intros Hw Hv.
  rewrite stateToProviders_closed, (allKeysOf_write_key _ Hw), Hw.
  simpl. unfold keyProviders.
  destruct (state.KeyMode (state.WriteKey desired)); [..|done]; simpl;
    eauto.
Qed.

Lemma walkProviders_head_tail keys : ∀ i,
  head (walkProviders (S i) keys)
  = (λ k, if decide (state.KeyMode k = state.AESCBC)
          then aescbcProvider (state.Key k)
          else secretboxProvider (state.Key k))
    <$> head (filter keyedMode keys).
Proof.
  induction keys as [|k keys IH]; intros i; [done|].
  simpl. rewrite filter_cons. unfold keyProviders.
  destruct (decide (keyedMode k)) as [Hk|Hk].
  - by destruct Hk as [Hm|Hm]; rewrite Hm; simpl; rewrite Hm.
  - destruct (state.KeyMode k) eqn:Hm; simpl.
    + destruct Hk. by left.
    + destruct Hk. by right.
    + apply IH.
    + apply IH.
Qed.

(** X4: when the write key has none of the three modes and the encoder still
    returns, the first provider of its list - the position that carries the
    write key - is the provider of the first read key of mode AESCBC or
    SecretBox that is left after the write key's duplicate is cut out. *)
Theorem X4_invalid_write_key_yields_first_place
    (desired : state.GroupResourceState)
    (ps : list apiserverconfigv1.ProviderConfiguration) (log : list Diag) :
  state.HasWriteKey desired = true →
  ¬ validMode (state.KeyMode (state.WriteKey desired)) →
  stateToProviders desired = (Returned ps, log) →
  ∃ k,
    head (filter keyedMode
            (dropFirstEqual (state.WriteKey desired)
               (state.ReadKeys desired))) = Some k
    ∧ k ∈ state.ReadKeys desired
    ∧ head ps
      = Some (if decide (state.KeyMode k = state.AESCBC)
              then aescbcProvider (state.Key k)
              else secretboxProvider (state.Key k)).
Proof.
  intros Hw Hv.
  rewrite stateToProviders_closed, (allKeysOf_write_key _ Hw), Hw.
  simpl. apply keyProviders_nil_head in Hv. rewrite Hv. simpl.
  pose proof (walkProviders_head_tail
                (dropFirstEqual (state.WriteKey desired)
                   (state.ReadKeys desired)) 0) as Hhead.
  destruct (walkProviders 1 _) as [|first main] eqn:Hwalk; [done|].
  intros Henc.
  destruct (head (filter keyedMode _)) as [k|] eqn:Hk; [|done].
  exists k. split; [done|]. split.
  - apply head_Some in Hk as [l' Hl'].
    assert (k ∈ filter keyedMode
                  (dropFirstEqual (state.WriteKey desired)
                     (state.ReadKeys desired))) as Hin
      by (rewrite Hl'; apply list_elem_of_here).
    apply list_elem_of_filter in Hin as [_ Hin].
    eapply elem_of_sublist; [done|apply dropFirstEqual_sublist].
  - assert (head ps = Some first) as ->
      by (destruct (apiserverconfigv1.Identity first); by simplify_eq).
    by simplify_eq/=.
Qed.

Lemma keySentinels_fmap keys :
  keys ≫= keySentinels
  = (λ k, aesgcmProvider (state.Key k))
    <$> filter (λ k, state.KeyMode k = state.Identity) keys.
Proof.
  induction keys as [|k keys IH]; [done|].
  rewrite bind_cons, IH, filter_cons. unfold keySentinels.
  case_decide as Hm.
  - by rewrite Hm.
  - by destruct (state.KeyMode k).
Qed.

Lemma mainProviderOf_mono keys keys' p :
  keys ⊆ keys' → mainProviderOf keys p → mainProviderOf keys' p.
Proof.
  intros Hsub [->|(k & Hk & Hp)]; [by left|right].
  exists k. split; [by apply Hsub|done].
Qed.

Lemma walkProviders_main keys : ∀ i,
  Forall (mainProviderOf keys) (walkProviders i keys).
Proof.
  induction keys as [|k keys IH]; intros i; [by constructor|].
  simpl. apply Forall_app. split.
  - unfold keyProviders. destruct (state.KeyMode k) eqn:Hm.
    + apply Forall_singleton. right. exists k.
      split; [apply list_elem_of_here|by left].
    + apply Forall_singleton. right. exists k.
      split; [apply list_elem_of_here|by right].
    + case_bool_decide; [|by constructor].
      apply Forall_singleton. by left.
    + by constructor.
  - eapply Forall_impl; [apply IH|]. intros p.
    apply mainProviderOf_mono. intros x. apply list_elem_of_further.
Qed.

Lemma mainProviderOf_Identity keys p :
  mainProviderOf keys p →
  is_Some (apiserverconfigv1.Identity p) → p = identityProvider.
Proof.
  intros [->|(k & _ & [[_ ->]|[_ ->]])] [x Hx]; done.
Qed.

(** The list [stateToProviders] returns: the providers of the main pass,
    the placeholder among them, then the AESGCM providers. *)
Lemma stateToProviders_shape desired ps log :
  stateToProviders desired = (Returned ps, log) →
  ∃ main,
    ps = main
         ++ ((λ k, aesgcmProvider (state.Key k))
             <$> filter (λ k, state.KeyMode k = state.Identity)
                   (allKeysOf desired))
    ∧ identityProvider ∈ main
    ∧ Forall (mainProviderOf (allKeysOf desired)) main.
Proof.
  rewrite stateToProviders_closed, keySentinels_fmap. simpl.
  assert (Forall (mainProviderOf (allKeysOf desired))
            ((if state.HasWriteKey desired then [] else [identityProvider])
             ++ walkProviders 0 (allKeysOf desired))) as Hmain.
  { apply Forall_app. split; [|apply walkProviders_main].
    destruct (state.HasWriteKey desired); [by constructor|].
    apply Forall_singleton. by left. }
  destruct (_ ++ walkProviders 0 (allKeysOf desired))
    as [|first main]; [done|].
  intros Henc.
  destruct (apiserverconfigv1.Identity first) as [c|] eqn:Hid; simplify_eq.
  - exists (first :: main). split; [done|]. split; [|done].
    apply Forall_cons in Hmain as [Hfirst _].
    rewrite <- (mainProviderOf_Identity _ _ Hfirst) by by rewrite Hid.
    apply list_elem_of_here.
  - exists ((first :: main) ++ [identityProvider]). split; [done|]. split.
    + apply elem_of_app. right. apply list_elem_of_here.
    + apply Forall_app. split; [done|]. apply Forall_singleton. by left.
Qed.

(** X5: every list [stateToProviders] returns holds the placeholder, holds
    only providers with a single key besides it, and has all its AESGCM
    providers at the end: first the placeholder and the AESCBC and SecretBox
    providers of walked keys, then one AESGCM provider for each Identity-mode
    key walked, in the order walked. *)
Theorem X5_provider_list_shape
    (desired : state.GroupResourceState)
    (ps : list apiserverconfigv1.ProviderConfiguration) (log : list Diag) :
  stateToProviders desired = (Returned ps, log) →
  ∃ main,
    ps = main
         ++ ((λ k, aesgcmProvider (state.Key k))
             <$> filter (λ k, state.KeyMode k = state.Identity)
                   (allKeysOf desired))
    ∧ identityProvider ∈ main
    ∧ Forall (λ p, apiserverconfigv1.AESGCM p = None) main
    ∧ Forall
        (λ p, p = identityProvider
              ∨ ∃ k, k ∈ allKeysOf desired
                     ∧ (state.KeyMode k = state.AESCBC
                        ∧ p = aescbcProvider (state.Key k)
                        ∨ state.KeyMode k = state.SecretBox
                          ∧ p = secretboxProvider (state.Key k))) main.
Proof.
  intros (main & Hps & Hid & Hmain)%stateToProviders_shape.
  exists main. split; [done|]. split; [done|]. split; [|done].
  eapply Forall_impl; [exact Hmain|].
  by intros p [->|(k & _ & [[_ ->]|[_ ->]])].
Qed.

(** ** The encoder's diagnostics *)

Lemma keyLog_fmap keys :
  keys ≫= keyLog
  = invalidModeInfo
    <$> filter (λ k, ¬ validMode (state.KeyMode k)) keys.
Proof.
  induction keys as [|k keys IH]; [done|].
  rewrite bind_cons, IH, filter_cons. unfold keyLog, invalidModeInfo.
  destruct (decide (¬ validMode (state.KeyMode k))) as [Hn|Hv].
  - destruct (state.KeyMode k) eqn:Hm; [by destruct Hn..|].
    by rewrite fmap_cons, Hm.
  - destruct (state.KeyMode k) eqn:Hm; [done..|].
    destruct Hv. by intros H.
Qed.

(** X6: whether it returns or panics, [stateToProviders] logs one diagnostic
    for each walked key whose mode is none of the three, in the order
    walked, and nothing else; it logs nothing exactly when every walked key
    has one of the three modes. *)
Theorem X6_encoder_diagnostics (desired : state.GroupResourceState) :
  (stateToProviders desired).2
  = invalidModeInfo
    <$> filter (λ k, ¬ validMode (state.KeyMode k)) (allKeysOf desired)
  ∧ ((stateToProviders desired).2 = []
     ↔ Forall (λ k, validMode (state.KeyMode k)) (allKeysOf desired)).
Proof.
  assert ((stateToProviders desired).2
          = invalidModeInfo
            <$> filter (λ k, ¬ validMode (state.KeyMode k))
                  (allKeysOf desired)) as Hlog.
  { rewrite stateToProviders_closed, keyLog_fmap. simpl.
    by destruct (_ ++ walkProviders 0 (allKeysOf desired)). }
  split; [done|]. rewrite Hlog. split.
  - intros Hnil%fmap_nil_inv. apply Forall_forall. intros k Hk.
    destruct (decide (validMode (state.KeyMode k))) as [|Hn]; [done|].
    assert (k ∈ filter (λ k, ¬ validMode (state.KeyMode k))
                  (allKeysOf desired)) as Hin
      by by apply list_elem_of_filter.
    rewrite Hnil in Hin. by apply elem_of_nil in Hin.
  - intros Hv. destruct (filter _ _) as [|k l] eqn:Hf; [done|].
    assert (k ∈ filter (λ k, ¬ validMode (state.KeyMode k))
                  (allKeysOf desired)) as Hin
      by (rewrite Hf; apply list_elem_of_here).
    apply list_elem_of_filter in Hin as [Hn Hin].
    rewrite Forall_forall in Hv. by destruct (Hn (Hv k Hin)).
Qed.

(** ** The decoder's diagnostics *)

Lemma decodeProviders_log backedKeys resource providers : ∀ i acc,
  (decodeProviders backedKeys resource i providers acc).2
  = acc.2 ++ providerLog resource i providers.
Proof.
  induction providers as [|p rest IH]; intros i acc; simpl.
  - by rewrite app_nil_r.
  - rewrite IH. unfold decodeProvider.
    destruct (classifyProvider p); simpl; by rewrite <- ?app_assoc.
Qed.

Lemma decodeResourceConfig_log backedKeys resourceConfig acc :
  (decodeResourceConfig backedKeys resourceConfig acc).2
  = acc.2 ++ resourceLog resourceConfig.
Proof.
  unfold decodeResourceConfig, resourceLog.
  destruct (apiserverconfigv1.Resources resourceConfig) as [|res [|]];
    [done| |done].
  pose proof (decodeProviders_log backedKeys res
                (apiserverconfigv1.Providers resourceConfig) 0
                (state.zeroGroupResourceState, acc.2)) as Hlog.
  by destruct (decodeProviders _ _ _ _ _).
Qed.

Lemma decodeResourceConfigs_log backedKeys resourceConfigs : ∀ acc,
  (decodeResourceConfigs backedKeys resourceConfigs acc).2
  = acc.2 ++ resourceConfigs ≫= resourceLog.
Proof.
  induction resourceConfigs as [|rc rest IH]; intros acc; simpl.
  - by rewrite app_nil_r.
  - by rewrite IH, decodeResourceConfig_log, <- app_assoc.
Qed.

Lemma ToEncryptionState_log encryptionConfig keySecrets :
  (ToEncryptionState encryptionConfig keySecrets).2
  = omap warningOf keySecrets
    ++ from_option
         (λ config, apiserverconfigv1.EC_Resources config ≫= resourceLog)
         [] encryptionConfig.
Proof.
  unfold ToEncryptionState. rewrite collectBackedKeys_closed.
  destruct encryptionConfig as [config|]; simpl; [|by rewrite app_nil_r].
  pose proof (decodeResourceConfigs_log
                (SortRecentFirst (omap backedKeyOf keySecrets))
                (apiserverconfigv1.EC_Resources config)
                (∅, omap warningOf keySecrets)) as Hlog.
  by destruct (decodeResourceConfigs _ _ _).
Qed.

Lemma providerLog_nil_iff resource providers : ∀ i,
  providerLog resource i providers = []
  ↔ Forall (λ p, classifyProvider p ≠ InvalidProvider) providers.
Proof.
  induction providers as [|p rest IH]; intros i; simpl.
  - split; [by constructor|done].
  - rewrite Forall_cons, <- (IH (S i)).
    destruct (classifyProvider p); simpl; split; try done;
      try (by intros [_ ?]); by intros [? _].
Qed.

Lemma resourceLog_nil_iff resourceConfig :
  resourceLog resourceConfig = []
  ↔ length (apiserverconfigv1.Resources resourceConfig) = 1
    ∧ Forall (λ p, classifyProvider p ≠ InvalidProvider)
        (apiserverconfigv1.Providers resourceConfig).
Proof.
  unfold resourceLog.
  destruct (apiserverconfigv1.Resources resourceConfig) as [|res [|]];
    simpl.
  - split; [done|]. by intros [? _].
  - rewrite providerLog_nil_iff. split; [by split|by intros [_ ?]].
  - split; [done|]. by intros [? _].
Qed.

Lemma bind_nil_iff {A B} (f : A → list B) (l : list A) :
  l ≫= f = [] ↔ Forall (λ x, f x = []) l.
Proof.
  induction l as [|x l IH]; [by split; [constructor|]|].
  rewrite bind_cons, Forall_cons, <- IH. split.
  - by intros [? ?]%app_eq_nil.
  - by intros [-> ->].
Qed.

(** X7: decoding logs nothing beyond one warning for each persisted record
    that does not parse exactly when every entry of the configuration names
    exactly one resource and none of its providers is skipped as invalid. *)
Theorem X7_decoder_silent_iff_well_formed
    (config : apiserverconfigv1.EncryptionConfiguration)
    (keySecrets : list Secret) :
  (ToEncryptionState (Some config) keySecrets).2 = omap warningOf keySecrets
  ↔ Forall
      (λ rc, length (apiserverconfigv1.Resources rc) = 1
             ∧ Forall (λ p, classifyProvider p ≠ InvalidProvider)
                 (apiserverconfigv1.Providers rc))
      (apiserverconfigv1.EC_Resources config).
Proof.
  rewrite ToEncryptionState_log. simpl.
  rewrite <- (Forall_iff (λ rc, resourceLog rc = []))
    by (intros rc; apply resourceLog_nil_iff).
  rewrite <- bind_nil_iff. split.
  - intros H. apply (app_inv_head (omap warningOf keySecrets)).
    by rewrite app_nil_r.
  - intros ->. by rewrite app_nil_r.
Qed.

(** No provider the encoder writes is invalid for the decoder, when the
    Identity-mode keys walked carry the sentinel. *)
Lemma stateToProviders_classified desired ps log :
  stateToProviders desired = (Returned ps, log) →
  Forall sentinelIfIdentity (allKeysOf desired) →
  Forall (λ p, classifyProvider p ≠ InvalidProvider) ps.
Proof.
  intros (main & -> & _ & Hmain)%stateToProviders_shape Hs.
  apply Forall_app. split.
  - eapply Forall_impl; [exact Hmain|].
    by intros p [->|(k & _ & [[_ ->]|[_ ->]])].
  - apply Forall_fmap, Forall_forall.
    intros k [Hm Hk]%list_elem_of_filter. simpl.
    rewrite Forall_forall in Hs.
    by rewrite classifyProvider_aesgcm_sentinel by by apply Hs.
Qed.

(** X8: decoding what the encoder returned logs nothing about the
    configuration: provided the Identity-mode keys of every state carry the
    sentinel, the only diagnostics are the warnings for persisted records that
    do not parse. *)
Theorem X8_decoding_encoder_output_is_silent
    (m : gmap schema.GroupResource state.GroupResourceState)
    (entries : list (schema.GroupResource * state.GroupResourceState))
    (config : apiserverconfigv1.EncryptionConfiguration) (log : list Diag)
    (keySecrets : list Secret) :
  visits m entries →
  FromEncryptionState entries = (Returned config, log) →
  (∀ gr desired, m !! gr = Some desired →
     Forall sentinelIfIdentity (allKeysOf desired)) →
  (ToEncryptionState (Some config) keySecrets).2 = omap warningOf keySecrets.
Proof.
  unfold visits. intros Hm Henc Hs.
  rewrite ToEncryptionState_log. simpl.
  assert ((FromEncryptionState entries).1 = Returned config) as Hret
    by by rewrite Henc.
  rewrite FromEncryptionState_mapM in Hret.
  destruct (mapM encodeEntry entries) as [rcs|] eqn:Hrcs; [|done].
  simplify_eq. simpl.
  rewrite (proj2 (bind_nil_iff resourceLog (sort_Slice rcs)));
    [by rewrite app_nil_r|].
  rewrite sort_Slice_Permutation.
  apply mapM_Some in Hrcs.
  eapply Forall2_Forall_r; [exact Hrcs|].
  apply Forall_forall. intros [gr desired] Hin rc Hrc.
  rewrite Hm in Hin. apply elem_of_map_to_list in Hin.
  unfold encodeEntry in Hrc. simpl in Hrc.
  destruct (stateToProviders desired) as [[ps|] lg] eqn:Hps;
    simplify_eq/=.
  apply resourceLog_nil_iff. split; [done|]. simpl.
  eapply stateToProviders_classified; [done|]. by eapply Hs.
Qed.

(** ** The map the decoder builds *)

Lemma decodeResourceConfig_entry backedKeys resourceConfig acc :
  Forall (λ k, state.Backed k = true) backedKeys →
  (decodeResourceConfig backedKeys resourceConfig acc).1
  = match decodedEntry backedKeys resourceConfig with
    | Some e => <[e.1 := e.2]> acc.1
    | None => acc.1
    end.
Proof.
  intros Hb. unfold decodedEntry.
  destruct (apiserverconfigv1.Resources resourceConfig)
    as [|res [|res' l]] eqn:Hr.
  - unfold decodeResourceConfig. by rewrite Hr.
  - by rewrite (decodeResourceConfig_closed _ _ _ _ Hb Hr).
  - unfold decodeResourceConfig. by rewrite Hr.
Qed.

Lemma decodeResourceConfigs_map backedKeys resourceConfigs :
  Forall (λ k, state.Backed k = true) backedKeys →
  ∀ acc,
    (decodeResourceConfigs backedKeys resourceConfigs acc).1
    = foldl (λ m e, <[e.1 := e.2]> m) acc.1
        (omap (decodedEntry backedKeys) resourceConfigs).
Proof.
  intros Hb. induction resourceConfigs as [|rc rest IH]; intros acc;
    [done|].
  simpl. rewrite IH, (decodeResourceConfig_entry _ _ _ Hb).
  by destruct (decodedEntry backedKeys rc).
Qed.

Lemma foldl_insert_list_to_map
    (l : list (schema.GroupResource * state.GroupResourceState)) :
  foldl (λ m e, <[e.1 := e.2]> m) ∅ l
  =@{gmap schema.GroupResource state.GroupResourceState}
  list_to_map (reverse l).
Proof.
  induction l as [|[k v] l IH] using rev_ind; [done|].
  by rewrite foldl_snoc, IH, reverse_snoc.
Qed.

(** The decoder's results: the map holds the entries in the order decoded,
    a later one replacing an earlier one for the same resource, and the
    backed keys are the sorted keys of the records that parse. *)
Lemma ToEncryptionState_map config keySecrets :
  reorders SortRecentFirst →
  (ToEncryptionState (Some config) keySecrets).1
  = (list_to_map
       (reverse
          (omap (decodedEntry (SortRecentFirst (omap backedKeyOf keySecrets)))
             (apiserverconfigv1.EC_Resources config))),
     SortRecentFirst (omap backedKeyOf keySecrets)).
Proof.
  intros Hperm. unfold ToEncryptionState.
  pose proof (collected_keys_Backed keySecrets Hperm) as Hb.
  rewrite collectBackedKeys_closed in *. simpl in *.
  pose proof (decodeResourceConfigs_map _
                (apiserverconfigv1.EC_Resources config) Hb
                (∅, omap warningOf keySecrets)) as Hmap.
  destruct (decodeResourceConfigs _ _ _) as [out lg]. simpl in *.
  by rewrite Hmap, foldl_insert_list_to_map.
Qed.

Lemma elem_of_decodedEntries backedKeys
    (resourceConfigs : list apiserverconfigv1.ResourceConfiguration)
    gr grState :
  (gr, grState) ∈ omap (decodedEntry backedKeys) resourceConfigs
  ↔ ∃ rc resource,
      rc ∈ resourceConfigs
      ∧ apiserverconfigv1.Resources rc = [resource]
      ∧ ParseGroupResource resource = gr
      ∧ grState = decodedState backedKeys (apiserverconfigv1.Providers rc).
Proof.
  rewrite list_elem_of_omap. unfold decodedEntry. split.
  - intros (rc & Hrc & He).
    destruct (apiserverconfigv1.Resources rc) as [|res [|]] eqn:Hr;
      simplify_eq. by exists rc, res.
  - intros (rc & res & Hrc & Hr & <- & ->). exists rc.
    split; [done|]. by rewrite Hr.
Qed.

Lemma ToEncryptionState_lookup config keySecrets gr grState :
  reorders SortRecentFirst →
  (ToEncryptionState (Some config) keySecrets).1.1 !! gr = Some grState →
  ∃ rc resource,
    rc ∈ apiserverconfigv1.EC_Resources config
    ∧ apiserverconfigv1.Resources rc = [resource]
    ∧ ParseGroupResource resource = gr
    ∧ grState
      = decodedState (SortRecentFirst (omap backedKeyOf keySecrets))
          (apiserverconfigv1.Providers rc).
Proof.
  intros Hperm. rewrite (ToEncryptionState_map _ _ Hperm). simpl.
  intros Hin%elem_of_list_to_map_2.
  rewrite elem_of_reverse in Hin. by apply elem_of_decodedEntries.
Qed.

(** X9: the resources of the decoded map are exactly the parsed identifiers
    of the entries that name exactly one resource; an entry that names none
    or several adds no resource. *)
Theorem X9_decoded_resources
    (config : apiserverconfigv1.EncryptionConfiguration)
    (keySecrets : list Secret) (gr : schema.GroupResource) :
  reorders SortRecentFirst →
  is_Some ((ToEncryptionState (Some config) keySecrets).1.1 !! gr)
  ↔ ∃ rc resource,
      rc ∈ apiserverconfigv1.EC_Resources config
      ∧ apiserverconfigv1.Resources rc = [resource]
      ∧ ParseGroupResource resource = gr.
Proof.
  intros Hperm. split.
  - intros [grState Hst].
    destruct (ToEncryptionState_lookup _ _ _ _ Hperm Hst)
      as (rc & res & ? & ? & ? & _).
    by exists rc, res.
  - intros (rc & res & Hrc & Hr & Hgr).
    rewrite (ToEncryptionState_map _ _ Hperm). simpl.
    apply not_eq_None_Some. intros Hnone%not_elem_of_list_to_map.
    apply Hnone. apply list_elem_of_fmap.
    eexists (gr, _). split; [done|].
    rewrite elem_of_reverse. apply elem_of_decodedEntries.
    by exists rc, res.
Qed.

Lemma list_to_map_lookup_first
    (l1 l2 : list (schema.GroupResource * state.GroupResourceState)) k v :
  k ∉ l1.*1 →
  (list_to_map (l1 ++ (k, v) :: l2)
   : gmap schema.GroupResource state.GroupResourceState) !! k = Some v.
Proof.
  intros Hk. rewrite list_to_map_app, lookup_union_r.
  - by rewrite list_to_map_cons, lookup_insert_eq.
  - by apply not_elem_of_list_to_map_1.
Qed.

(** X10: when several entries name the same resource, the last one decides:
    the state stored for a resource is the one decoded from the last entry
    that names exactly that resource. *)
Theorem X10_last_entry_wins
    (config : apiserverconfigv1.EncryptionConfiguration)
    (keySecrets : list Secret)
    (before after : list apiserverconfigv1.ResourceConfiguration)
    (rc : apiserverconfigv1.ResourceConfiguration) (resource : string) :
  reorders SortRecentFirst →
  apiserverconfigv1.EC_Resources config = before ++ rc :: after →
  apiserverconfigv1.Resources rc = [resource] →
  (∀ rc' resource',
     rc' ∈ after → apiserverconfigv1.Resources rc' = [resource'] →
     ParseGroupResource resource' ≠ ParseGroupResource resource) →
  ∃ grState,
    (ToEncryptionState (Some config) keySecrets).1.1
      !! ParseGroupResource resource = Some grState
    ∧ state.WriteKey grState
      = writeKeyDecoded (ToEncryptionState (Some config) keySecrets).1.2
          (apiserverconfigv1.Providers rc)
    ∧ state.ReadKeys grState
      = SortRecentFirst
          (decodedKeys (ToEncryptionState (Some config) keySecrets).1.2
             (apiserverconfigv1.Providers rc)).
Proof.
  intros Hperm Hcfg Hr Hafter.
  rewrite (ToEncryptionState_map _ _ Hperm), Hcfg. simpl.
  exists (decodedState (SortRecentFirst (omap backedKeyOf keySecrets))
            (apiserverconfigv1.Providers rc)).
  split; [|done].
  rewrite omap_app. simpl. unfold decodedEntry at 2. rewrite Hr.
  rewrite reverse_app, reverse_cons, <- app_assoc. simpl.
  apply list_to_map_lookup_first.
  intros ([gr st] & Hgr & Hin)%list_elem_of_fmap. simpl in Hgr.
  rewrite elem_of_reverse in Hin.
  apply elem_of_decodedEntries in Hin as (rc' & res' & ? & ? & ? & _).
  eapply Hafter; [done..|]. by subst.
Qed.

(** ** The states the decoder stores *)

Lemma elem_of_decodedKeys backedKeys
    (providers : list apiserverconfigv1.ProviderConfiguration) k :
  k ∈ decodedKeys backedKeys providers
  ↔ ∃ p ks,
      p ∈ providers ∧ classifyProvider p = Decoded ks
      ∧ k = enrich backedKeys ks.
Proof.
  unfold decodedKeys. rewrite list_elem_of_omap. unfold decodedKey. split.
  - intros (p & Hp & Hk).
    destruct (classifyProvider p) as [ks| |] eqn:Hc; simplify_eq.
    by exists p, ks.
  - intros (p & ks & Hp & Hc & ->). exists p. by rewrite Hc.
Qed.

Lemma firstIdentity_Some keys k :
  firstIdentity keys = Some k →
  k ∈ keys ∧ state.KeyMode k = state.Identity.
Proof.
  unfold firstIdentity. intros [l Hl]%head_Some.
  assert (k ∈ filter (λ k, state.KeyMode k = state.Identity) keys) as Hin
    by (rewrite Hl; apply list_elem_of_here).
  by apply list_elem_of_filter in Hin as [? ?].
Qed.

Lemma firstIdentity_None keys :
  firstIdentity keys = None
  ↔ Forall (λ k, state.KeyMode k ≠ state.Identity) keys.
Proof.
  unfold firstIdentity. rewrite head_None. split.
  - intros Hnil. apply Forall_forall. intros k Hk Hm.
    assert (k ∈ filter (λ k, state.KeyMode k = state.Identity) keys) as Hin
      by by apply list_elem_of_filter.
    rewrite Hnil in Hin. by apply elem_of_nil in Hin.
  - intros Hall. destruct (filter _ keys) as [|k l] eqn:Hf; [done|].
    assert (k ∈ filter (λ k, state.KeyMode k = state.Identity) keys) as Hin
      by (rewrite Hf; apply list_elem_of_here).
    apply list_elem_of_filter in Hin as [Hm Hin].
    rewrite Forall_forall in Hall. by destruct (Hall k Hin).
Qed.

Lemma writeKeyDecoded_elem backedKeys providers :
  writeKeyDecoded backedKeys providers ≠ state.zeroKeyState →
  writeKeyDecoded backedKeys providers ∈ decodedKeys backedKeys providers.
Proof.
  destruct providers as [|p rest]; [done|].
  unfold writeKeyDecoded. rewrite decodedKeys_cons.
  destruct (classifyProvider p) as [ks| |];
    [intros _; apply list_elem_of_here|..];
    (destruct (firstIdentity (decodedKeys backedKeys rest)) as [k|] eqn:Hk;
     [|done]; intros _; simpl; by apply firstIdentity_Some in Hk as [? _]).
Qed.

Lemma elem_of_SortRecentFirst l k :
  reorders SortRecentFirst → k ∈ SortRecentFirst l ↔ k ∈ l.
Proof. intros H. by rewrite (H l). Qed.

(** X11: in every state of the decoded map the write key, when there is
    one, is also one of the read keys. *)
Theorem X11_write_key_is_a_read_key
    (config : apiserverconfigv1.EncryptionConfiguration)
    (keySecrets : list Secret) (gr : schema.GroupResource)
    (grState : state.GroupResourceState) :
  reorders SortRecentFirst →
  (ToEncryptionState (Some config) keySecrets).1.1 !! gr = Some grState →
  state.HasWriteKey grState = true →
  state.WriteKey grState ∈ state.ReadKeys grState.
Proof.
  intros Hperm Hst Hw.
  destruct (ToEncryptionState_lookup _ _ _ _ Hperm Hst)
    as (rc & res & _ & _ & _ & ->).
  simpl. apply (elem_of_SortRecentFirst _ _ Hperm).
  apply writeKeyDecoded_elem.
  unfold state.HasWriteKey in Hw. by apply bool_decide_eq_true in Hw.
Qed.

Lemma enrich_spec backedKeys ks :
  (enrich backedKeys ks ∈ backedKeys
   ∧ sameIdentity ks (enrich backedKeys ks))
  ∨ (enrich backedKeys ks = ks
     ∧ ∀ b, b ∈ backedKeys → ¬ sameIdentity ks b).
Proof.
  induction backedKeys as [|k rest IH]; simpl.
  - right. split; [done|]. by intros b ?%elem_of_nil.
  - destruct (state.EqualKeyAndEqualID ks k) eqn:Hk.
    + left. split; [apply list_elem_of_here|].
      by apply EqualKeyAndEqualID_sameIdentity.
    + destruct IH as [[Hin Hs]|[Heq Hno]].
      * left. split; [by apply list_elem_of_further|done].
      * right. split; [done|]. intros b [->|Hb]%elem_of_cons.
        -- intros Hs%EqualKeyAndEqualID_sameIdentity. by rewrite Hs in Hk.
        -- by apply Hno.
Qed.

(** X12: every read key of the decoded map is either one of the returned
    backed keys, with [Backed = true], or it has [Backed = false] and no
    returned backed key has its name and secret. *)
Theorem X12_read_keys_backed_or_unmatched
    (config : apiserverconfigv1.EncryptionConfiguration)
    (keySecrets : list Secret) (gr : schema.GroupResource)
    (grState : state.GroupResourceState) (k : state.KeyState) :
  reorders SortRecentFirst →
  (ToEncryptionState (Some config) keySecrets).1.1 !! gr = Some grState →
  k ∈ state.ReadKeys grState →
  (state.Backed k = true
   ∧ k ∈ (ToEncryptionState (Some config) keySecrets).1.2)
  ∨ (state.Backed k = false
     ∧ ∀ b, b ∈ (ToEncryptionState (Some config) keySecrets).1.2 →
            ¬ sameIdentity k b).
Proof.
  intros Hperm Hst Hk.
  destruct (ToEncryptionState_lookup _ _ _ _ Hperm Hst)
    as (rc & res & _ & _ & _ & ->).
  rewrite (ToEncryptionState_map _ _ Hperm). simpl in *.
  apply (proj1 (elem_of_SortRecentFirst _ _ Hperm)) in Hk.
  apply elem_of_decodedKeys in Hk as (p & ks & _ & Hc & ->).
  pose proof (collected_keys_Backed keySecrets Hperm) as Hb.
  rewrite collectBackedKeys_closed in Hb. simpl in Hb.
  destruct (enrich_spec (SortRecentFirst (omap backedKeyOf keySecrets)) ks)
    as [[Hin _]|[Heq Hno]].
  - left. split; [|done]. rewrite Forall_forall in Hb. by apply Hb.
  - right. rewrite Heq. split; [|done].
    by apply classifyProvider_mode in Hc as [_ ?].
Qed.

Lemma singleKey_Some keys k : singleKey keys = Some k → keys = [k].
Proof. destruct keys as [|? [|]]; intros; by simplify_eq/=. Qed.

Lemma classifyProvider_key provider ks :
  classifyProvider provider = Decoded ks →
  state.Key ks ∈ providerKeys provider.
Proof.
  unfold classifyProvider, providerKeys.
  destruct (apiserverconfigv1.AESCBC provider ≫= _) as [k|] eqn:Hc.
  { intros; simplify_eq/=.
    apply bind_Some in Hc as (c & Hc1 & Hc2%singleKey_Some).
    rewrite Hc1. simpl. rewrite Hc2. apply list_elem_of_here. }
  destruct (apiserverconfigv1.Secretbox provider ≫= _) as [k|] eqn:Hs.
  { intros; simplify_eq/=.
    apply bind_Some in Hs as (c & Hs1 & Hs2%singleKey_Some).
    rewrite Hs1. simpl. rewrite Hs2.
    apply elem_of_app. right. apply list_elem_of_here. }
  destruct (apiserverconfigv1.Identity provider); [done|].
  destruct (apiserverconfigv1.AESGCM provider ≫= _) as [k|] eqn:Hg;
    [|done].
  case_bool_decide; [|done]. intros; simplify_eq/=.
  apply bind_Some in Hg as (c & Hg1 & Hg2%singleKey_Some).
  rewrite Hg1. simpl. rewrite Hg2.
  apply elem_of_app. right. apply elem_of_app. right.
  apply list_elem_of_here.
Qed.

(** X13: the decoder invents no key: every read key of the decoded map has
    the name and secret of a key held by a provider of an entry that names
    the resource. *)
Theorem X13_read_keys_come_from_providers
    (config : apiserverconfigv1.EncryptionConfiguration)
    (keySecrets : list Secret) (gr : schema.GroupResource)
    (grState : state.GroupResourceState) (k : state.KeyState) :
  reorders SortRecentFirst →
  (ToEncryptionState (Some config) keySecrets).1.1 !! gr = Some grState →
  k ∈ state.ReadKeys grState →
  ∃ rc resource p,
    rc ∈ apiserverconfigv1.EC_Resources config
    ∧ apiserverconfigv1.Resources rc = [resource]
    ∧ ParseGroupResource resource = gr
    ∧ p ∈ apiserverconfigv1.Providers rc
    ∧ state.Key k ∈ providerKeys p.
Proof.
  intros Hperm Hst Hk.
  destruct (ToEncryptionState_lookup _ _ _ _ Hperm Hst)
    as (rc & res & Hrc & Hr & Hgr & ->).
  simpl in Hk. apply (proj1 (elem_of_SortRecentFirst _ _ Hperm)) in Hk.
  apply elem_of_decodedKeys in Hk as (p & ks & Hp & Hc & ->).
  exists rc, res, p. repeat (split; [done|]).
  destruct (enrich_spec (SortRecentFirst (omap backedKeyOf keySecrets)) ks)
    as [[_ Hs]|[-> _]].
  - rewrite <- Hs. by apply classifyProvider_key.
  - by apply classifyProvider_key.
Qed.

(** X14: in every state of the decoded map that has a read key of mode
    Identity there is a write key. *)
Theorem X14_identity_read_key_implies_write_key
    (config : apiserverconfigv1.EncryptionConfiguration)
    (keySecrets : list Secret) (gr : schema.GroupResource)
    (grState : state.GroupResourceState) (k : state.KeyState) :
  reorders SortRecentFirst →
  (ToEncryptionState (Some config) keySecrets).1.1 !! gr = Some grState →
  k ∈ state.ReadKeys grState →
  state.KeyMode k = state.Identity →
  state.HasWriteKey grState = true.
Proof.
  intros Hperm Hst Hk Hm.
  destruct (ToEncryptionState_lookup _ _ _ _ Hperm Hst)
    as (rc & res & _ & _ & _ & ->).
  pose proof (collected_keys_Backed keySecrets Hperm) as Hb.
  rewrite collectBackedKeys_closed in Hb. simpl in Hb, Hk.
  apply (proj1 (elem_of_SortRecentFirst _ _ Hperm)) in Hk.
  apply HasWriteKey_true. unfold writeKeyDecoded.
  destruct (apiserverconfigv1.Providers rc) as [|p rest];
    [by apply elem_of_nil in Hk|].
  rewrite decodedKeys_cons in Hk.
  assert (∀ keys, k ∈ keys →
            default state.zeroKeyState (firstIdentity keys)
            ≠ state.zeroKeyState) as Hfirst.
  { intros keys Hin. destruct (firstIdentity keys) as [k'|] eqn:Hk'.
    - apply firstIdentity_Some in Hk' as [_ Hm']. simpl.
      intros Hz. by rewrite Hz in Hm'.
    - apply firstIdentity_None in Hk'. rewrite Forall_forall in Hk'.
      by destruct (Hk' k Hin). }
  destruct (classifyProvider p) as [ks| |] eqn:Hc;
    [by eapply enrich_nonzero|by apply Hfirst..].
Qed.

(** ** Encoding and decoding whole maps *)

Lemma firstIdentity_identities keys :
  firstIdentity
    (unbacked <$> filter (λ k, state.KeyMode k = state.Identity) keys)
  = head (unbacked <$> filter (λ k, state.KeyMode k = state.Identity) keys).
Proof.
  destruct (filter _ keys) as [|k l] eqn:Hf; [done|].
  assert (k ∈ filter (λ k, state.KeyMode k = state.Identity) keys) as Hin
    by (rewrite Hf; apply list_elem_of_here).
  apply list_elem_of_filter in Hin as [Hm _].
  rewrite fmap_cons, firstIdentity_cons. by rewrite decide_True.
Qed.

Lemma stateToProviders_no_write_key desired :
  state.HasWriteKey desired = false →
  Forall sentinelIfIdentity (state.ReadKeys desired) →
  ∃ ps log,
    stateToProviders desired = (Returned ps, log)
    ∧ writeKeyDecoded [] ps
      = default state.zeroKeyState
          (head (unbacked
                   <$> filter (λ k, state.KeyMode k = state.Identity)
                         (state.ReadKeys desired))).
Proof.
  intros Hw Hs. rewrite stateToProviders_closed. unfold allKeysOf.
  rewrite Hw. simpl. do 2 eexists. split; [done|]. simpl.
  rewrite decodedKeys_app, decodedKeys_walkProviders, firstIdentity_keyed.
  by rewrite decodedKeys_keySentinels, firstIdentity_identities.
Qed.

(** One state, encoded and decoded with no persisted records. *)
Lemma roundTrip_state desired :
  (state.HasWriteKey desired = true →
   validMode (state.KeyMode (state.WriteKey desired))) →
  Forall sentinelIfIdentity (allKeysOf desired) →
  ∃ ps log,
    stateToProviders desired = (Returned ps, log)
    ∧ decodedState [] ps = roundTrip desired.
Proof.
  intros Hv Hs. unfold decodedState, roundTrip.
  destruct (state.HasWriteKey desired) eqn:Hw.
  - assert (sentinelIfIdentity (state.WriteKey desired)) as Hsw.
    { rewrite (allKeysOf_write_key _ Hw) in Hs.
      by apply Forall_cons in Hs as [? _]. }
    destruct (stateToProviders_write_key desired Hw (Hv eq_refl) Hsw)
      as (ps & log & Henc & Hwk).
    exists ps, log. split; [done|].
    by rewrite Hwk, (decodedKeys_stateToProviders _ _ _ Henc Hs).
  - assert (Forall sentinelIfIdentity (state.ReadKeys desired)) as Hsr.
    { unfold allKeysOf in Hs. by rewrite Hw in Hs. }
    destruct (stateToProviders_no_write_key desired Hw Hsr)
      as (ps & log & Henc & Hwk).
    exists ps, log. split; [done|].
    by rewrite Hwk, (decodedKeys_stateToProviders _ _ _ Henc Hs).
Qed.

Lemma omap_Forall2 {A B C} (f : B → option C) (g : A → C)
    (l : list A) (k : list B) :
  Forall2 (λ x y, f y = Some (g x)) l k → omap f k = g <$> l.
Proof.
  induction 1 as [|x y l k Hxy _ IH]; [done|].
  change (omap f (y :: k))
    with (match f y with Some z => z :: omap f k | None => omap f k end).
  by rewrite Hxy, IH.
Qed.

(** X15: encoding a map and decoding the result with no persisted records
    gives, for every resource of the map and for no other, the state
    [roundTrip] describes: the walked keys of modes AESCBC, SecretBox and
    Identity come back unbacked with their name, secret and mode; the write
    key comes back, and a state without a write key comes back with its first
    Identity-mode read key as write key.  This holds when every resource
    identifier parses back from its printed form, every write key has one of
    the three modes and every Identity-mode key carries the sentinel. *)
Theorem X15_round_trip_of_maps
    (m : gmap schema.GroupResource state.GroupResourceState)
    (entries : list (schema.GroupResource * state.GroupResourceState)) :
  visits m entries →
  reorders SortRecentFirst →
  (∀ gr, is_Some (m !! gr) →
     ParseGroupResource (GroupResource_String gr) = gr) →
  (∀ gr desired, m !! gr = Some desired →
     (state.HasWriteKey desired = true →
      validMode (state.KeyMode (state.WriteKey desired)))
     ∧ Forall sentinelIfIdentity (allKeysOf desired)) →
  ∃ config log,
    FromEncryptionState entries = (Returned config, log)
    ∧ (ToEncryptionState (Some config) []).1.1 = roundTrip <$> m.
Proof.
  unfold visits. intros Hm Hperm Hparse Hstates.
  assert (∀ e rc, e ∈ entries → encodeEntry e = Some rc →
            decodedEntry [] rc = Some (prod_map id roundTrip e)) as Hdec.
  { intros [gr desired] rc Hin Hrc.
    rewrite Hm in Hin. apply elem_of_map_to_list in Hin.
    destruct (Hstates gr desired Hin) as [Hv Hs].
    destruct (roundTrip_state desired Hv Hs) as (ps & lg & Henc & Hrt).
    unfold encodeEntry in Hrc. simpl in Hrc. rewrite Henc in Hrc.
    simplify_eq/=. unfold decodedEntry. simpl.
    by rewrite Hparse, Hrt by eauto. }
  assert (is_Some (mapM encodeEntry entries)) as [rcs Hrcs].
  { apply mapM_is_Some, Forall_forall. intros [gr desired] Hin.
    rewrite Hm in Hin. apply elem_of_map_to_list in Hin.
    destruct (Hstates gr desired Hin) as [Hv Hs].
    destruct (roundTrip_state desired Hv Hs) as (ps & lg & Henc & _).
    unfold compose, encodeEntry. simpl. by rewrite Henc. }
  pose proof (FromEncryptionState_mapM entries) as Hfrom.
  rewrite Hrcs in Hfrom.
  destruct (FromEncryptionState entries) as [o log] eqn:Henc.
  simpl in Hfrom. subst o.
  exists {| apiserverconfigv1.EC_Resources := sort_Slice rcs |}, log.
  split; [done|].
  rewrite (ToEncryptionState_map _ _ Hperm). simpl.
  rewrite (reorders_nil Hperm).
  rewrite <- (list_to_map_to_list (roundTrip <$> m)).
  symmetry. apply list_to_map_proper; [apply NoDup_fst_map_to_list|].
  rewrite reverse_Permutation, sort_Slice_Permutation.
  rewrite map_to_list_fmap, <- Hm. symmetry.
  erewrite (omap_Forall2 (decodedEntry []) (prod_map id roundTrip));
    [done|].
  apply mapM_Some in Hrcs. clear Henc Hm.
  induction Hrcs as [|e rc l k Hrc _ IH]; constructor.
  - apply Hdec; [apply list_elem_of_here|done].
  - apply IH. intros e' rc' Hin. apply Hdec. by apply list_elem_of_further.
Qed.

(** ** The output does not depend on the visiting order *)

Lemma mapM_Some_omap {A B} (f : A → option B) (l : list A) (k : list B) :
  mapM f l = Some k → k = omap f l.
Proof.
  intros H%mapM_Some. induction H as [|x y l k Hxy _ IH]; [done|].
  change (omap f (x :: l))
    with (match f x with Some z => z :: omap f l | None => omap f l end).
  by rewrite Hxy, IH.
Qed.

Lemma mapM_Permutation_is_Some {A B} (f : A → option B) (l1 l2 : list A) :
  l1 ≡ₚ l2 → is_Some (mapM f l1) → is_Some (mapM f l2).
Proof. rewrite !mapM_is_Some. by intros ->. Qed.

Lemma notAfter_antisym a b :
  notAfter a b → notAfter b a → firstResource a = firstResource b.
Proof.
  rewrite !notAfter_le. intros Hab Hba.
  by apply (anti_symm String.le).
Qed.

(** X16: if no two resources of the map print to the same identifier, the
    configuration [FromEncryptionState] returns - or its panic - is the same
    for every order in which the map is visited. *)
Theorem X16_output_independent_of_visiting_order
    (m : gmap schema.GroupResource state.GroupResourceState)
    (entries entries' :
       list (schema.GroupResource * state.GroupResourceState)) :
  visits m entries →
  visits m entries' →
  (∀ gr gr', is_Some (m !! gr) → is_Some (m !! gr') →
     GroupResource_String gr = GroupResource_String gr' → gr = gr') →
  (FromEncryptionState entries).1 = (FromEncryptionState entries').1.
Proof.
  unfold visits. intros Hm Hm' Hinj.
  assert (entries ≡ₚ entries') as Hperm by by rewrite Hm, Hm'.
  rewrite !FromEncryptionState_mapM.
  destruct (mapM encodeEntry entries) as [rcs|] eqn:Hrcs;
    destruct (mapM encodeEntry entries') as [rcs'|] eqn:Hrcs'.
  - do 2 f_equal.
    apply mapM_Some_omap in Hrcs, Hrcs'.
    assert (rcs ≡ₚ rcs') as Hp by by rewrite Hrcs, Hrcs', Hperm.
    apply (StronglySorted_unique_strong notAfter);
      [|apply (StronglySorted_merge_sort notAfter)..
       |by rewrite !sort_Slice_Permutation].
    intros x1 x2 Hx1 Hx2 H12 H21.
    pose proof (notAfter_antisym _ _ H12 H21) as Hfirst.
    unfold sort_Slice in Hx1, Hx2.
    rewrite merge_sort_Permutation, Hrcs in Hx1.
    rewrite merge_sort_Permutation, Hrcs' in Hx2.
    apply list_elem_of_omap in Hx1 as ([g1 s1] & Hin1 & He1).
    apply list_elem_of_omap in Hx2 as ([g2 s2] & Hin2 & He2).
    rewrite Hm in Hin1. rewrite Hm' in Hin2.
    apply elem_of_map_to_list in Hin1, Hin2.
    unfold encodeEntry in He1, He2. simpl in He1, He2.
    destruct (stateToProviders s1).1 as [ps1|] eqn:Hs1; [|done].
    destruct (stateToProviders s2).1 as [ps2|] eqn:Hs2; [|done].
    simplify_eq/=. unfold firstResource in Hfirst. simpl in Hfirst.
    assert (g1 = g2) as -> by (apply Hinj; eauto).
    rewrite Hin1 in Hin2. injection Hin2 as ->.
    rewrite Hs1 in Hs2. by injection Hs2 as ->.
  - assert (is_Some (mapM encodeEntry entries')) as [? ?]
      by (eapply mapM_Permutation_is_Some; eauto).
    by simplify_eq.
  - assert (is_Some (mapM encodeEntry entries)) as [? ?]
      by (eapply mapM_Permutation_is_Some; [symmetry|]; eauto).
    by simplify_eq.
  - done.
Qed.

Lemma classifyProvider_sentinel provider ks :
  classifyProvider provider = Decoded ks → sentinelIfIdentity ks.
Proof.
  unfold classifyProvider, sentinelIfIdentity.
  destruct (apiserverconfigv1.AESCBC provider ≫= _) as [k|];
    [intros; by simplify_eq/=|].
  destruct (apiserverconfigv1.Secretbox provider ≫= _) as [k|];
    [intros; by simplify_eq/=|].
  destruct (apiserverconfigv1.Identity provider); [done|].
  destruct (apiserverconfigv1.AESGCM provider ≫= _) as [k|]; [|done].
  destruct (bool_decide _) eqn:Hs; [|done].
  apply bool_decide_eq_true_1 in Hs. intros; by simplify_eq/=.
Qed.

(** X17: a read key of the decoded map that no persisted record backs has
    one of the modes AESCBC, SecretBox and Identity, and when its mode is
    Identity its secret is the fixed identity sentinel. *)
Theorem X17_unbacked_read_keys_have_wire_modes
    (config : apiserverconfigv1.EncryptionConfiguration)
    (keySecrets : list Secret) (gr : schema.GroupResource)
    (grState : state.GroupResourceState) (k : state.KeyState) :
  reorders SortRecentFirst →
  (ToEncryptionState (Some config) keySecrets).1.1 !! gr = Some grState →
  k ∈ state.ReadKeys grState →
  state.Backed k = false →
  validMode (state.KeyMode k)
  ∧ (state.KeyMode k = state.Identity →
     apiserverconfigv1.Secret (state.Key k) = emptyStaticIdentityKey).
Proof.
  intros Hperm Hst Hk Hunbacked.
  destruct (ToEncryptionState_lookup _ _ _ _ Hperm Hst)
    as (rc & res & _ & _ & _ & ->).
  simpl in Hk.
  apply (proj1 (elem_of_SortRecentFirst _ _ Hperm)) in Hk.
  apply elem_of_decodedKeys in Hk as (p & ks & _ & Hc & ->).
  pose proof (collected_keys_Backed keySecrets Hperm) as Hb.
  rewrite collectBackedKeys_closed in Hb. simpl in Hb.
  destruct (enrich_spec (SortRecentFirst (omap backedKeyOf keySecrets)) ks)
    as [[Hin _]|[Heq _]].
  - rewrite Forall_forall in Hb. apply Hb in Hin.
    by rewrite Hin in Hunbacked.
  - rewrite Heq. split.
    + by apply classifyProvider_mode in Hc as [? _].
    + by apply classifyProvider_sentinel in Hc.
Qed.

End encryptionconfig.

(** ** The sample collaborators meet what is assumed of them *)

Lemma Sample_reorders : reorders Sample.SortRecentFirst.
Proof. intros l. apply merge_sort_Permutation. Qed.

#[local] Instance Sample_recentFirst_total : Total Sample.recentFirst.
Proof. intros a b. unfold Sample.recentFirst. apply (total String.le). Qed.

Lemma Sample_ordersBy : ordersBy Sample.recentFirst Sample.SortRecentFirst.
Proof. intros l. apply (Sorted_merge_sort Sample.recentFirst). Qed.

Lemma Sample_parse_secrets :
  Sample.ParseGroupResource
    (Sample.GroupResource_String Sample.secretsResource)
  = Sample.secretsResource.
Proof. reflexivity. Qed.

Lemma visits_single r desired : visits {[r := desired]} [(r, desired)].
Proof. unfold visits. by rewrite map_to_list_singleton. Qed.

Lemma Sample_visits_twoResources :
  visits (list_to_map Sample.twoResources) Sample.twoResources.
Proof.
  unfold visits. symmetry. apply map_to_list_to_map.
  repeat first [apply NoDup_nil_2|apply NoDup_cons_2];
    intros H;
    repeat (apply elem_of_cons in H as [H|H]; [discriminate H|]);
    by apply elem_of_nil in H.
Qed.

(** ** The claims on the sample inputs *)

#[local] Abbreviation sampleEncode :=
  (FromEncryptionState Sample.GroupResource_String).

#[local] Abbreviation sampleDecode :=
  (ToEncryptionState Sample.emptyStaticIdentityKey Sample.Secret
     Sample.ToKeyState Sample.SortRecentFirst Sample.ParseGroupResource).

#[local] Abbreviation sampleClassify :=
  (classifyProvider Sample.emptyStaticIdentityKey).

(** An Identity-mode write key whose secret is not the sentinel satisfies
    what C1 asks of its input, and does not survive the round trip: the
    decoder skips its AESGCM provider and the decoded entry is empty. *)
Lemma C1_counterexample :
  state.HasWriteKey Sample.identityPlain = true
  ∧ visits {[Sample.secretsResource := Sample.identityPlain]}
      [(Sample.secretsResource, Sample.identityPlain)]
  ∧ sampleEncode [(Sample.secretsResource, Sample.identityPlain)]
    = (Returned
         {| apiserverconfigv1.EC_Resources :=
              [{| apiserverconfigv1.Resources := ["secrets"];
                  apiserverconfigv1.Providers :=
                    [identityProvider;
                     aesgcmProvider (state.Key Sample.k1_plain)] |}] |}, [])
  ∧ (sampleDecode
       (Some
          {| apiserverconfigv1.EC_Resources :=
               [{| apiserverconfigv1.Resources := ["secrets"];
                   apiserverconfigv1.Providers :=
                     [identityProvider;
                      aesgcmProvider (state.Key Sample.k1_plain)] |}] |})
       []).1.1 !! Sample.secretsResource
    = Some state.zeroGroupResourceState
  ∧ ¬ sameIdentity (state.WriteKey state.zeroGroupResourceState)
        (state.WriteKey Sample.identityPlain).
Proof.
  split; [done|]. split; [apply visits_single|].
  repeat split. by vm_compute.
Qed.

Lemma C1_witness :
  state.HasWriteKey Sample.rotated = true
  ∧ ∃ config log decoded,
      sampleEncode [(Sample.secretsResource, Sample.rotated)]
      = (Returned config, log)
      ∧ (sampleDecode (Some config) []).1.1 !! Sample.secretsResource
        = Some decoded
      ∧ sameIdentity (state.WriteKey decoded)
          (state.WriteKey Sample.rotated)
      ∧ ∀ key,
          key ∈ state.Key <$> state.ReadKeys decoded
          ↔ key ∈ state.Key <$> state.ReadKeys Sample.rotated.
Proof.
  split; [reflexivity|].
  apply (C1_round_trip_identities Sample.emptyStaticIdentityKey
           Sample.Secret Sample.ToKeyState Sample.SortRecentFirst
           Sample.GroupResource_String Sample.ParseGroupResource
           Sample.secretsResource Sample.rotated
           [(Sample.secretsResource, Sample.rotated)]);
    [| | | | | |apply visits_single].
  - exact Sample_reorders.
  - reflexivity.
  - reflexivity.
  - repeat first [apply Forall_nil_2|apply Forall_cons_2]; exact I.
  - repeat first [apply Forall_nil_2|apply Forall_cons_2];
      intros H; first [reflexivity|discriminate H].
  - exists Sample.k3. split; [apply list_elem_of_here|reflexivity].
Defined.

(** Position 0 holds a genuine AESGCM key: neither a decoded key nor the
    placeholder.  The claim leaves the write key unset; the loop makes the
    Identity-mode key k1 at position 1 the write key. *)
Lemma C3_counterexample :
  sampleClassify (aesgcmProvider Sample.k2_wire) = InvalidProvider
  ∧ writeKeyClaimed Sample.emptyStaticIdentityKey []
      [aesgcmProvider Sample.k2_wire; aesgcmProvider (state.Key Sample.k1)]
    = state.zeroKeyState
  ∧ (decodeProviders Sample.emptyStaticIdentityKey [] "secrets" 0
       [aesgcmProvider Sample.k2_wire; aesgcmProvider (state.Key Sample.k1)]
       (state.zeroGroupResourceState, [])).1
    = {| state.WriteKey := Sample.k1; state.ReadKeys := [Sample.k1] |}
  ∧ Sample.k1 ≠ state.zeroKeyState.
Proof. repeat split. by vm_compute. Qed.

Lemma C3_witness :
  ∃ grState,
    (decodeResourceConfig Sample.emptyStaticIdentityKey
       Sample.SortRecentFirst Sample.ParseGroupResource []
       {| apiserverconfigv1.Resources := ["secrets"];
          apiserverconfigv1.Providers :=
            [identityProvider; aesgcmProvider (state.Key Sample.k1)] |}
       (∅, [])).1 !! Sample.ParseGroupResource "secrets" = Some grState
    ∧ state.ReadKeys grState = [Sample.k1]
    ∧ state.WriteKey grState = Sample.k1.
Proof.
  apply (C3_write_key_determination Sample.emptyStaticIdentityKey
           Sample.SortRecentFirst Sample.ParseGroupResource []
           {| apiserverconfigv1.Resources := ["secrets"];
              apiserverconfigv1.Providers :=
                [identityProvider; aesgcmProvider (state.Key Sample.k1)] |}
           "secrets" (∅, [])).
  - apply Forall_nil_2.
  - reflexivity.
Defined.

(** The scenario of C4 on the sample sentinel: the encoder's list has three
    providers, not two, and the decoded entry has k1 as its write key. *)
Lemma C4_counterexample :
  stateToProviders (identityOnly Sample.emptyStaticIdentityKey)
  = (Returned
       [identityProvider; identityProvider;
        aesgcmProvider (state.Key Sample.k1)], [])
  ∧ [identityProvider; identityProvider;
     aesgcmProvider (state.Key Sample.k1)]
    ≠ [identityProvider; aesgcmProvider (state.Key Sample.k1)]
  ∧ (sampleDecode
       (Some
          {| apiserverconfigv1.EC_Resources :=
               [{| apiserverconfigv1.Resources := ["secrets"];
                   apiserverconfigv1.Providers :=
                     [identityProvider; identityProvider;
                      aesgcmProvider (state.Key Sample.k1)] |}] |})
       []).1.1 !! Sample.secretsResource
    = Some {| state.WriteKey := Sample.k1; state.ReadKeys := [Sample.k1] |}
  ∧ state.HasWriteKey
      {| state.WriteKey := Sample.k1; state.ReadKeys := [Sample.k1] |}
    = true.
Proof. repeat split. by vm_compute. Qed.

Lemma C4_witness :
  ∃ placeholders config,
    stateToProviders (identityOnly Sample.emptyStaticIdentityKey)
    = (Returned
         (identityProvider
            :: placeholders
            ++ [aesgcmProvider
                  {| apiserverconfigv1.Name := "k1";
                     apiserverconfigv1.Secret :=
                       Sample.emptyStaticIdentityKey |}]), [])
    ∧ Forall (λ p, p = identityProvider) placeholders
    ∧ sampleEncode
        [(Sample.secretsResource,
          identityOnly Sample.emptyStaticIdentityKey)]
      = (Returned config, [])
    ∧ sampleDecode (Some config) []
      = (({[Sample.secretsResource :=
              {| state.WriteKey := Sample.k1;
                 state.ReadKeys := [Sample.k1] |}]}, []), []).
Proof.
  apply (C4_identity_read_key_scenario Sample.emptyStaticIdentityKey
           Sample.Secret Sample.ToKeyState Sample.SortRecentFirst
           Sample.GroupResource_String Sample.ParseGroupResource
           [(Sample.secretsResource,
             identityOnly Sample.emptyStaticIdentityKey)]).
  - exact Sample_reorders.
  - apply visits_single.
Defined.

(** An Identity-mode read key whose secret is not the sentinel: the encoder
    returns, and no provider of its list is the AESGCM provider with the
    key's name and the sentinel. *)
Lemma C5_counterexample :
  Sample.k1_plain ∈ state.ReadKeys Sample.identityPlainRead
  ∧ state.KeyMode Sample.k1_plain = state.Identity
  ∧ stateToProviders Sample.identityPlainRead
    = (Returned
         [identityProvider; identityProvider;
          aesgcmProvider (state.Key Sample.k1_plain)], [])
  ∧ aesgcmProvider
      {| apiserverconfigv1.Name := "k1";
         apiserverconfigv1.Secret := Sample.emptyStaticIdentityKey |}
    ∉ [identityProvider; identityProvider;
       aesgcmProvider (state.Key Sample.k1_plain)].
Proof.
  split; [apply list_elem_of_here|]. repeat split.
  intros H. repeat (apply elem_of_cons in H as [H|H]; [discriminate H|]).
  by apply elem_of_nil in H.
Qed.

Lemma C5_witness :
  aesgcmProvider (state.Key Sample.k1)
  ∈ [identityProvider; identityProvider;
     aesgcmProvider (state.Key Sample.k1)]
  ∧ (apiserverconfigv1.Secret (state.Key Sample.k1)
     = Sample.emptyStaticIdentityKey →
     sampleClassify (aesgcmProvider (state.Key Sample.k1))
     = Decoded {| state.Key := state.Key Sample.k1;
                  state.KeyMode := state.Identity;
                  state.Backed := false |})
  ∧ (apiserverconfigv1.Secret (state.Key Sample.k1)
     ≠ Sample.emptyStaticIdentityKey →
     sampleClassify (aesgcmProvider (state.Key Sample.k1))
     = InvalidProvider).
Proof.
  apply (C5_identity_keys_travel_as_aesgcm Sample.emptyStaticIdentityKey
           (identityOnly Sample.emptyStaticIdentityKey)
           [identityProvider; identityProvider;
            aesgcmProvider (state.Key Sample.k1)] [] Sample.k1).
  - reflexivity.
  - apply list_elem_of_here.
  - reflexivity.
  - intros H. vm_compute in H. discriminate H.
Defined.

(** The write key listed twice among the read keys, against the rule that
    each key occupies one position: one occurrence is cut out, the other is
    walked, and the write key gets two providers. *)
Lemma duplicated_walked_twice :
  allKeysOf Sample.duplicated = [Sample.k3; Sample.k3]
  ∧ stateToProviders Sample.duplicated
    = (Returned
         [aescbcProvider (state.Key Sample.k3);
          aescbcProvider (state.Key Sample.k3); identityProvider], []).
Proof. by split. Qed.


Lemma C7_witness :
  state.HasWriteKey (identityOnly Sample.emptyStaticIdentityKey) = false
  ∧ ∃ rest log,
      stateToProviders (identityOnly Sample.emptyStaticIdentityKey)
      = (Returned (identityProvider :: rest), log)
      ∧ sampleEncode
          [(Sample.secretsResource,
            identityOnly Sample.emptyStaticIdentityKey)]
        = (Returned
             {| apiserverconfigv1.EC_Resources :=
                  [{| apiserverconfigv1.Resources :=
                        [Sample.GroupResource_String Sample.secretsResource];
                      apiserverconfigv1.Providers :=
                        identityProvider :: rest |}] |}, log).
Proof.
  split; [reflexivity|].
  apply (C7_placeholder_first_without_write_key
           Sample.GroupResource_String
           (identityOnly Sample.emptyStaticIdentityKey)
           Sample.secretsResource
           [(Sample.secretsResource,
             identityOnly Sample.emptyStaticIdentityKey)]).
  - reflexivity.
  - apply visits_single.
Defined.

Lemma C8_witness :
  visits (list_to_map Sample.twoResources) Sample.twoResources
  ∧ ∃ config log,
      sampleEncode Sample.twoResources = (Returned config, log)
      ∧ firstResource <$> apiserverconfigv1.EC_Resources config
        = ["configmaps.apps"; "secrets"]
      ∧ StronglySorted String.le
          (firstResource <$> apiserverconfigv1.EC_Resources config)
      ∧ ∀ entries' config' log',
          visits (list_to_map Sample.twoResources) entries' →
          sampleEncode entries' = (Returned config', log') →
          firstResource <$> apiserverconfigv1.EC_Resources config'
          = firstResource <$> apiserverconfigv1.EC_Resources config.
Proof.
  split; [exact Sample_visits_twoResources|].
  eexists _, _. split; [reflexivity|]. split; [reflexivity|].
  pose proof
    (C8_resource_entries_sorted Sample.GroupResource_String
       (list_to_map Sample.twoResources) Sample.twoResources _ _
       Sample_visits_twoResources eq_refl) as (Hsorted & _ & Hsame).
  split; [exact Hsorted|exact Hsame].
Defined.

Lemma C9_witness :
  ∃ backedKeys,
    sampleDecode None Sample.records
    = ((∅, backedKeys), [Warning_invalid_secret "malformed record"])
    ∧ backedKeys = [Sample.k3_backed; Sample.k1_backed]
    ∧ (∀ k, k ∈ backedKeys
            ↔ ∃ s km,
                s ∈ Sample.records ∧ Sample.ToKeyState s = Ok km
                ∧ k = {| state.Key := state.Key km;
                         state.KeyMode := state.KeyMode km;
                         state.Backed := true |})
    ∧ Forall (λ k, state.Backed k = true) backedKeys
    ∧ Sorted Sample.recentFirst backedKeys.
Proof.
  destruct
    (C9_absent_config_returns_backed_keys Sample.emptyStaticIdentityKey
       Sample.Secret Sample.ToKeyState Sample.SortRecentFirst
       Sample.ParseGroupResource Sample.recentFirst Sample.records
       Sample_reorders Sample_ordersBy)
    as (backedKeys & parsed & Hcall & -> & Hsort & _ & Hin & Hb & Hs).
  exists backedKeys. split; [exact Hcall|]. split; [exact Hsort|].
  split; [exact Hin|]. split; [exact Hb|exact Hs].
Defined.

Lemma C10_witness :
  apiserverconfigv1.Secret Sample.k2_wire ≠ Sample.emptyStaticIdentityKey
  ∧ sampleClassify (aesgcmProvider Sample.k2_wire) = InvalidProvider
  ∧ decodeProvider Sample.emptyStaticIdentityKey [] "secrets" 0
      (aesgcmProvider Sample.k2_wire) (state.zeroGroupResourceState, [])
    = (state.zeroGroupResourceState, [Info_invalid_provider 0 "secrets"]).
Proof.
  assert (apiserverconfigv1.Secret Sample.k2_wire
          ≠ Sample.emptyStaticIdentityKey) as Hk
    by (intros H; discriminate H).
  split; [exact Hk|].
  exact (C10_real_aesgcm_key_is_dropped Sample.emptyStaticIdentityKey []
           "secrets" 0 Sample.k2_wire (state.zeroGroupResourceState, []) Hk).
Defined.

(** ** Further properties on the sample inputs *)

Lemma Sample_twoResources_lookup gr desired :
  (list_to_map Sample.twoResources
   : gmap schema.GroupResource state.GroupResourceState) !! gr
  = Some desired →
  (gr = Sample.secretsResource ∧ desired = Sample.rotated)
  ∨ (gr = Sample.configmapsResource ∧ desired = Sample.writeAndRead).
Proof.
  intros Hin%elem_of_list_to_map_2.
  apply elem_of_cons in Hin as [Heq|Hin]; [left; by simplify_eq|].
  apply elem_of_cons in Hin as [Heq|Hin]; [right; by simplify_eq|].
  by apply elem_of_nil in Hin.
Qed.

Lemma Sample_repeated_decoded :
  (sampleDecode (Some SampleWire.repeated) Sample.records).1.1
    !! Sample.secretsResource
  = Some SampleWire.secretsState.
Proof. by vm_compute. Qed.

Lemma X2_witness :
  (sampleEncode [(Sample.secretsResource, Sample.unsetMode)]).1 = Panicked
  ↔ ∃ gr desired,
      ({[Sample.secretsResource := Sample.unsetMode]}
       : gmap schema.GroupResource state.GroupResourceState) !! gr
      = Some desired
      ∧ (stateToProviders desired).1 = Panicked.
Proof.
  apply (X2_FromEncryptionState_panics_iff Sample.GroupResource_String
           {[Sample.secretsResource := Sample.unsetMode]}
           [(Sample.secretsResource, Sample.unsetMode)]).
  apply visits_single.
Defined.

Lemma X3_witness :
  ∃ rest log,
    stateToProviders Sample.rotated
    = (Returned (aescbcProvider (state.Key Sample.k3) :: rest), log).
Proof.
  apply (X3_first_provider_is_the_write_key Sample.rotated).
  - reflexivity.
  - exact I.
Defined.

Lemma X4_witness :
  ∃ k,
    head (filter keyedMode
            (dropFirstEqual (state.WriteKey Sample.unsetModeKeyedRead)
               (state.ReadKeys Sample.unsetModeKeyedRead))) = Some k
    ∧ k ∈ state.ReadKeys Sample.unsetModeKeyedRead
    ∧ head [aescbcProvider (state.Key Sample.k3); identityProvider]
      = Some (if decide (state.KeyMode k = state.AESCBC)
              then aescbcProvider (state.Key k)
              else secretboxProvider (state.Key k)).
Proof.
  apply (X4_invalid_write_key_yields_first_place Sample.unsetModeKeyedRead
           [aescbcProvider (state.Key Sample.k3); identityProvider]
           [Info_invalid_mode "k1" (state.Other "")]).
  - reflexivity.
  - intros H. exact H.
  - reflexivity.
Defined.

Lemma X5_witness :
  ∃ main,
    [aescbcProvider (state.Key Sample.k3); identityProvider;
     aesgcmProvider (state.Key Sample.k1)]
    = main
      ++ ((λ k, aesgcmProvider (state.Key k))
          <$> filter (λ k, state.KeyMode k = state.Identity)
                (allKeysOf Sample.rotated))
    ∧ identityProvider ∈ main
    ∧ Forall (λ p, apiserverconfigv1.AESGCM p = None) main
    ∧ Forall
        (λ p, p = identityProvider
              ∨ ∃ k, k ∈ allKeysOf Sample.rotated
                     ∧ (state.KeyMode k = state.AESCBC
                        ∧ p = aescbcProvider (state.Key k)
                        ∨ state.KeyMode k = state.SecretBox
                          ∧ p = secretboxProvider (state.Key k))) main.
Proof.
  apply (X5_provider_list_shape Sample.rotated
           [aescbcProvider (state.Key Sample.k3); identityProvider;
            aesgcmProvider (state.Key Sample.k1)] []).
  reflexivity.
Defined.

Lemma Sample_twoResources_sentinels gr desired :
  (list_to_map Sample.twoResources
   : gmap schema.GroupResource state.GroupResourceState) !! gr
  = Some desired →
  (state.HasWriteKey desired = true →
   validMode (state.KeyMode (state.WriteKey desired)))
  ∧ Forall (sentinelIfIdentity Sample.emptyStaticIdentityKey)
      (allKeysOf desired).
Proof.
  intros [[-> ->]|[-> ->]]%Sample_twoResources_lookup;
    (split; [by intros _|]);
    repeat first [apply Forall_nil_2|apply Forall_cons_2];
    intros H; first [reflexivity|discriminate H].
Qed.

Lemma X8_witness :
  ∃ config log,
    sampleEncode Sample.twoResources = (Returned config, log)
    ∧ (sampleDecode (Some config) Sample.records).2
      = [Warning_invalid_secret "malformed record"].
Proof.
  eexists _, _. split; [reflexivity|].
  apply (X8_decoding_encoder_output_is_silent Sample.emptyStaticIdentityKey
           Sample.Secret Sample.ToKeyState Sample.SortRecentFirst
           Sample.GroupResource_String Sample.ParseGroupResource
           (list_to_map Sample.twoResources) Sample.twoResources _ []
           Sample.records).
  - exact Sample_visits_twoResources.
  - reflexivity.
  - intros gr desired H.
    by destruct (Sample_twoResources_sentinels gr desired H).
Defined.

Lemma X9_witness :
  is_Some ((sampleDecode (Some SampleWire.repeated) Sample.records).1.1
             !! Sample.secretsResource)
  ↔ ∃ rc resource,
      rc ∈ apiserverconfigv1.EC_Resources SampleWire.repeated
      ∧ apiserverconfigv1.Resources rc = [resource]
      ∧ Sample.ParseGroupResource resource = Sample.secretsResource.
Proof.
  apply (X9_decoded_resources Sample.emptyStaticIdentityKey Sample.Secret
           Sample.ToKeyState Sample.SortRecentFirst
           Sample.ParseGroupResource SampleWire.repeated Sample.records
           Sample.secretsResource).
  exact Sample_reorders.
Defined.

Lemma X10_witness :
  ∃ grState,
    (sampleDecode (Some SampleWire.repeated) Sample.records).1.1
      !! Sample.ParseGroupResource "secrets" = Some grState
    ∧ state.WriteKey grState = SampleWire.k1_backed
    ∧ state.ReadKeys grState = [SampleWire.k1_backed].
Proof.
  apply (X10_last_entry_wins Sample.emptyStaticIdentityKey Sample.Secret
           Sample.ToKeyState Sample.SortRecentFirst
           Sample.ParseGroupResource SampleWire.repeated Sample.records
           [{| apiserverconfigv1.Resources := ["secrets"];
               apiserverconfigv1.Providers :=
                 [aescbcProvider (state.Key Sample.k3); identityProvider] |};
            {| apiserverconfigv1.Resources := ["secrets"; "configmaps"];
               apiserverconfigv1.Providers := [identityProvider] |}]
           []
           {| apiserverconfigv1.Resources := ["secrets"];
              apiserverconfigv1.Providers :=
                [identityProvider; aesgcmProvider (state.Key Sample.k1)] |}
           "secrets").
  - exact Sample_reorders.
  - reflexivity.
  - reflexivity.
  - intros rc' resource' H. by apply elem_of_nil in H.
Defined.

Lemma X11_witness :
  state.WriteKey SampleWire.secretsState
  ∈ state.ReadKeys SampleWire.secretsState.
Proof.
  apply (X11_write_key_is_a_read_key Sample.emptyStaticIdentityKey
           Sample.Secret Sample.ToKeyState Sample.SortRecentFirst
           Sample.ParseGroupResource SampleWire.repeated Sample.records
           Sample.secretsResource SampleWire.secretsState).
  - exact Sample_reorders.
  - exact Sample_repeated_decoded.
  - reflexivity.
Defined.

Lemma X12_witness :
  (state.Backed SampleWire.k1_backed = true
   ∧ SampleWire.k1_backed
     ∈ (sampleDecode (Some SampleWire.repeated) Sample.records).1.2)
  ∨ (state.Backed SampleWire.k1_backed = false
     ∧ ∀ b,
         b ∈ (sampleDecode (Some SampleWire.repeated) Sample.records).1.2 →
         ¬ sameIdentity SampleWire.k1_backed b).
Proof.
  apply (X12_read_keys_backed_or_unmatched Sample.emptyStaticIdentityKey
           Sample.Secret Sample.ToKeyState Sample.SortRecentFirst
           Sample.ParseGroupResource SampleWire.repeated Sample.records
           Sample.secretsResource SampleWire.secretsState
           SampleWire.k1_backed).
  - exact Sample_reorders.
  - exact Sample_repeated_decoded.
  - apply list_elem_of_here.
Defined.

Lemma X13_witness :
  ∃ rc resource p,
    rc ∈ apiserverconfigv1.EC_Resources SampleWire.repeated
    ∧ apiserverconfigv1.Resources rc = [resource]
    ∧ Sample.ParseGroupResource resource = Sample.secretsResource
    ∧ p ∈ apiserverconfigv1.Providers rc
    ∧ state.Key SampleWire.k1_backed ∈ providerKeys p.
Proof.
  apply (X13_read_keys_come_from_providers Sample.emptyStaticIdentityKey
           Sample.Secret Sample.ToKeyState Sample.SortRecentFirst
           Sample.ParseGroupResource SampleWire.repeated Sample.records
           Sample.secretsResource SampleWire.secretsState
           SampleWire.k1_backed).
  - exact Sample_reorders.
  - exact Sample_repeated_decoded.
  - apply list_elem_of_here.
Defined.

Lemma X14_witness : state.HasWriteKey SampleWire.secretsState = true.
Proof.
  apply (X14_identity_read_key_implies_write_key
           Sample.emptyStaticIdentityKey Sample.Secret Sample.ToKeyState
           Sample.SortRecentFirst Sample.ParseGroupResource
           SampleWire.repeated Sample.records Sample.secretsResource
           SampleWire.secretsState SampleWire.k1_backed).
  - exact Sample_reorders.
  - exact Sample_repeated_decoded.
  - apply list_elem_of_here.
  - reflexivity.
Defined.

Lemma Sample_twoResources_parse gr :
  is_Some ((list_to_map Sample.twoResources
            : gmap schema.GroupResource state.GroupResourceState) !! gr) →
  Sample.ParseGroupResource (Sample.GroupResource_String gr) = gr.
Proof.
  by intros [desired [[-> _]|[-> _]]%Sample_twoResources_lookup].
Qed.

Lemma X15_witness :
  ∃ config log,
    sampleEncode Sample.twoResources = (Returned config, log)
    ∧ (sampleDecode (Some config) []).1.1
      = roundTrip Sample.SortRecentFirst
        <$> list_to_map Sample.twoResources.
Proof.
  apply (X15_round_trip_of_maps Sample.emptyStaticIdentityKey Sample.Secret
           Sample.ToKeyState Sample.SortRecentFirst
           Sample.GroupResource_String Sample.ParseGroupResource
           (list_to_map Sample.twoResources) Sample.twoResources).
  - exact Sample_visits_twoResources.
  - exact Sample_reorders.
  - exact Sample_twoResources_parse.
  - exact Sample_twoResources_sentinels.
Defined.

Lemma Sample_visits_twoResources_reversed :
  visits (list_to_map Sample.twoResources) (reverse Sample.twoResources).
Proof.
  unfold visits. rewrite reverse_Permutation.
  exact Sample_visits_twoResources.
Qed.

Lemma Sample_twoResources_distinct gr gr' :
  is_Some ((list_to_map Sample.twoResources
            : gmap schema.GroupResource state.GroupResourceState) !! gr) →
  is_Some ((list_to_map Sample.twoResources
            : gmap schema.GroupResource state.GroupResourceState) !! gr') →
  Sample.GroupResource_String gr = Sample.GroupResource_String gr' →
  gr = gr'.
Proof.
  intros H H' Heq. apply Sample_twoResources_parse in H, H'.
  by rewrite <- H, <- H', Heq.
Qed.

Lemma X16_witness :
  (sampleEncode Sample.twoResources).1
  = (sampleEncode (reverse Sample.twoResources)).1.
Proof.
  apply (X16_output_independent_of_visiting_order
           Sample.GroupResource_String (list_to_map Sample.twoResources)
           Sample.twoResources (reverse Sample.twoResources)).
  - exact Sample_visits_twoResources.
  - exact Sample_visits_twoResources_reversed.
  - exact Sample_twoResources_distinct.
Defined.

Lemma Sample_repeated_decoded_unbacked :
  (sampleDecode (Some SampleWire.repeated) []).1.1
    !! Sample.secretsResource
  = Some {| state.WriteKey := Sample.k1; state.ReadKeys := [Sample.k1] |}.
Proof. by vm_compute. Qed.

Lemma X17_witness :
  validMode (state.KeyMode Sample.k1)
  ∧ (state.KeyMode Sample.k1 = state.Identity →
     apiserverconfigv1.Secret (state.Key Sample.k1)
     = Sample.emptyStaticIdentityKey).
Proof.
  apply (X17_unbacked_read_keys_have_wire_modes
           Sample.emptyStaticIdentityKey Sample.Secret Sample.ToKeyState
           Sample.SortRecentFirst Sample.ParseGroupResource
           SampleWire.repeated [] Sample.secretsResource
           {| state.WriteKey := Sample.k1; state.ReadKeys := [Sample.k1] |}
           Sample.k1).
  - exact Sample_reorders.
  - exact Sample_repeated_decoded_unbacked.
  - apply list_elem_of_here.
  - reflexivity.
Defined.
